(** * venus2gro: VENUS96 trajectory output to g96 / gro

    A shallow embedding of [src/venus2g96.py] and [src/venus2gro.py]:
    the anchor-driven line scanner, the unit conversion, the atom
    reordering, and the writer with its backup rotation.

    Conventions of the embedding.
    - Python [float] and [numpy.float64] are IEEE binary64: Rocq's primitive
      [float], with the same rounding.
    - Python [int] is unbounded: [Z].  [numpy.int32] is [Z] with its
      wrap-around written out ([wrap32]).
    - Text is byte strings ([string]); a line keeps its newline, if any.
    - An exception aborts the conversion: computations live in [result],
      and the constructor of [exn] records which Python exception it was.
    - The file system is a finite map from path strings to the records
      written to them, together with the log of operations performed.
    - [print] calls (console progress) are left out. *)

From Stdlib Require Import ZArith String Ascii List Floats Uint63 Lia.
From stdpp Require Import base tactics option list strings pretty gmap.

Set Warnings "-inexact-float".
Set Default Proof Using "Type".

(** ** Exceptions *)

Inductive exn : Set :=
  | IndexError
  | ValueError
  | TypeError
  | ZeroDivisionError
  | AssertionError.

Inductive result (A : Type) : Type :=
  | Ok (a : A)
  | Raise (e : exn).
Arguments Ok {A} a.
Arguments Raise {A} e.

Global Instance result_ret : MRet result := @Ok.
Global Instance result_bind : MBind result := λ A B f m,
  match m with
  | Ok a => f a
  | Raise e => Raise e
  end.
Global Instance result_fmap : FMap result := λ A B f m,
  match m with
  | Ok a => Ok (f a)
  | Raise e => Raise e
  end.

Definition raises {A} (m : result A) : Prop := ∃ e, m = Raise e.

Definition is_ok {A} (m : result A) : bool :=
  match m with Ok _ => true | Raise _ => false end.

(** [o] or, when [o] is [None], the exception [e]. *)
Definition or_raise {A} (e : exn) (o : option A) : result A :=
  match o with
  | Some a => Ok a
  | None => Raise e
  end.

(** ** Python built-ins on strings and lists *)

Module Py.

(** [str.isspace] on one ASCII character. *)
Definition is_space (c : ascii) : bool :=
  let n := nat_of_ascii c in
  ((9 <=? n) && (n <=? 13) || (28 <=? n) && (n <=? 32))%nat.

(** [needle in hay]. *)
Fixpoint contains (needle hay : string) : bool :=
  String.prefix needle hay ||
  match hay with
  | EmptyString => false
  | String _ hay' => contains needle hay'
  end.

(** [s.split()]: the maximal runs of non-blank characters. *)
Fixpoint split_go (cur : string) (s : string) : list string :=
  match s with
  | EmptyString =>
      match cur with
      | EmptyString => []
      | _ => [String.rev cur]
      end
  | String c s' =>
      if is_space c then
        match cur with
        | EmptyString => split_go EmptyString s'
        | _ => String.rev cur :: split_go EmptyString s'
        end
      else split_go (String c cur) s'
  end.
Definition split (s : string) : list string := split_go EmptyString s.

(** [s.split(sep)[-1]] for a one-character separator: what follows the
    last [sep], the whole of [s] when there is none. *)
Fixpoint last_field_go (sep : ascii) (cur : string) (s : string) : string :=
  match s with
  | EmptyString => String.rev cur
  | String c s' =>
      if Ascii.eqb c sep then last_field_go sep EmptyString s'
      else last_field_go sep (String c cur) s'
  end.
Definition last_field (sep : ascii) (s : string) : string :=
  last_field_go sep EmptyString s.

(** [s.replace(old, new)] for a non-empty [old]: every occurrence, left
    to right, without overlap.  [skip] counts the characters of a matched
    occurrence that are still to be dropped. *)
Fixpoint replace_go (old new : string) (skip : nat) (s : string) : string :=
  match s with
  | EmptyString => EmptyString
  | String c s' =>
      match skip with
      | S k => replace_go old new k s'
      | O =>
          if String.prefix old s
          then new +:+ replace_go old new (String.length old - 1) s'
          else String c (replace_go old new 0 s')
      end
  end.
Definition replace (old new s : string) : string := replace_go old new 0 s.

(** [s.rstrip()]. *)
Fixpoint lstrip (s : string) : string :=
  match s with
  | String c s' => if is_space c then lstrip s' else s
  | EmptyString => EmptyString
  end.
Definition rstrip (s : string) : string := String.rev (lstrip (String.rev s)).
Definition strip (s : string) : string := lstrip (rstrip s).

(** [s[i:j]] for non-negative literal bounds. *)
Definition slice (i j : nat) (s : string) : string :=
  String.substring i (j - i) s.

(** [l[i]] for a non-negative index. *)
Definition item {A} (l : list A) (i : nat) : result A :=
  or_raise IndexError (l !! i).

(** [l[j]] for an index of either sign: a negative [j] counts from the
    end, anything outside [-len(l) .. len(l)-1] raises IndexError. *)
Definition norm_index (len : nat) (j : Z) : option nat :=
  if (0 <=? j)%Z then
    (if (j <? Z.of_nat len)%Z then Some (Z.to_nat j) else None)
  else
    (if (- Z.of_nat len <=? j)%Z then Some (Z.to_nat (Z.of_nat len + j)) else None).
Definition item_Z {A} (l : list A) (j : Z) : result A :=
  or_raise IndexError (norm_index (length l) j ≫= λ i, l !! i).

(** [l[i] = x] for a non-negative index. *)
Definition set_item {A} (l : list A) (i : nat) (x : A) : result (list A) :=
  if (i <? length l)%nat then Ok (<[i := x]> l) else Raise IndexError.

(** [str(n)] for an integer. *)
Definition str_int (n : Z) : string := pretty n.

End Py.

(** [os.path] and [fnmatch] on POSIX path strings. *)
Module Os.

Definition slash : ascii := "/"%char.

Fixpoint all_slashes (s : string) : bool :=
  match s with
  | EmptyString => true
  | String c s' => Ascii.eqb c slash && all_slashes s'
  end.

Fixpoint lstrip_slashes (s : string) : string :=
  match s with
  | String c s' => if Ascii.eqb c slash then lstrip_slashes s' else s
  | EmptyString => EmptyString
  end.

(** [posixpath.split]: [head] is what precedes the last slash, with its
    trailing slashes removed unless it consists of slashes only. *)
Definition basename (p : string) : string := Py.last_field slash p.
Definition dirname (p : string) : string :=
  let head := String.substring 0 (String.length p - String.length (basename p)) p in
  if all_slashes head then head
  else String.rev (lstrip_slashes (String.rev head)).

(** [os.path.join(a, b)]. *)
Definition join (a b : string) : string :=
  match b with
  | String c _ => if Ascii.eqb c slash then b else
      match String.rev a with
      | EmptyString => b
      | String d _ => if Ascii.eqb d slash then a +:+ b else a +:+ "/" +:+ b
      end
  | EmptyString =>
      match String.rev a with
      | EmptyString => b
      | String d _ => if Ascii.eqb d slash then a else a +:+ "/"
      end
  end.

(** [fnmatch] with the wildcards [*] and [?]; every other character of
    the pattern stands for itself (bracket classes are not modelled). *)
Fixpoint fnmatch_go (pat : string) : string → bool :=
  match pat with
  | EmptyString => λ name, match name with EmptyString => true | _ => false end
  | String p pat' =>
      if Ascii.eqb p "*"%char then
        fix star (name : string) : bool :=
          fnmatch_go pat' name ||
          match name with
          | EmptyString => false
          | String _ name' => star name'
          end
      else λ name,
        match name with
        | EmptyString => false
        | String c name' =>
            (Ascii.eqb p "?"%char || Ascii.eqb p c) && fnmatch_go pat' name'
        end
  end.
Definition fnmatch (name pat : string) : bool := fnmatch_go pat name.

End Os.

Example split_cycle_line :
  Py.split " THE CYCLE COUNT IS   100  TIME:  50.0
" = ["THE"; "CYCLE"; "COUNT"; "IS"; "100"; "TIME:"; "50.0"].
Proof. reflexivity. Qed.

Example last_field_atoms : Py.last_field "=" " NUMBER OF ATOMS = 2" = " 2".
Proof. reflexivity. Qed.

Example replace_suffix : Py.replace ".g96" "_1.g96" "out/traj.g96" = "out/traj_1.g96".
Proof. reflexivity. Qed.

Example replace_every : Py.replace ".g96" "" "a.g96.b.g96" = "a.b".
Proof. reflexivity. Qed.

Example dirname_sub : Os.dirname "out/run/traj_1.g96" = "out/run".
Proof. reflexivity. Qed.

Example dirname_cwd : Os.dirname "traj_1.g96" = "".
Proof. reflexivity. Qed.

Example fnmatch_backup : Os.fnmatch "#traj_1.12.g96#" "#traj_1.*.g96#" = true.
Proof. reflexivity. Qed.

Example fnmatch_other : Os.fnmatch "#traj_10.1.g96#" "#traj_1.*.g96#" = false.
Proof. reflexivity. Qed.

(** ** Numbers *)

(** A concrete reading of [int(s)] and [float(s)] for plain decimal tokens:
    blanks stripped, an optional sign, digits, and for [float] an optional
    fraction.  The parser below does not depend on it: it is stated for any
    pair of conversion functions, and this one is used to run it. *)
Module Num.

Fixpoint digits_go (acc : Z) (s : string) : option Z :=
  match s with
  | EmptyString => Some acc
  | String c s' =>
      d ← Ascii.is_nat c; digits_go (10 * acc + Z.of_nat d) s'
  end.

Definition digits (s : string) : option Z :=
  match s with
  | EmptyString => None
  | _ => digits_go 0 s
  end.

Definition with_sign {A} (neg : A → A) (f : string → option A) (s : string) : option A :=
  match s with
  | String "-" s' => neg <$> f s'
  | String "+" s' => f s'
  | _ => f s
  end.

Definition int_of_string (s : string) : option Z :=
  with_sign Z.opp digits (Py.strip s).

Definition float_of_Z (z : Z) : float := PrimFloat.of_uint63 (Uint63.of_Z z).

(** [whole.frac] is [whole*10^k + frac] over [10^k]; both are exactly
    representable when the digits fit in 53 bits and [k <= 18], so the
    single rounding of the division gives the nearest binary64, which is
    what [float] returns.  Longer tokens are outside this reading. *)
Definition unsigned_float (s : string) : option float :=
  let whole := String.rev (Py.last_field "." (String.rev s)) in
  let frac :=
    if Py.contains "." s
    then String.substring (S (String.length whole))
           (String.length s - S (String.length whole)) s
    else EmptyString in
  m ← digits (whole +:+ frac);
  let k := Z.of_nat (String.length frac) in
  if ((m <? 2 ^ 53) && (k <=? 18))%Z
  then Some (float_of_Z m / float_of_Z (10 ^ k))%float
  else None.

Definition float_of_string (s : string) : option float :=
  with_sign PrimFloat.opp unsigned_float (Py.strip s).

End Num.

Example int_of_string_atoms : Num.int_of_string " 2
" = Some 2%Z.
Proof. reflexivity. Qed.

Example int_of_string_word : Num.int_of_string "IS" = None.
Proof. reflexivity. Qed.

Example float_of_string_time : Num.float_of_string "50.0" = Some 50%float.
Proof. vm_compute. reflexivity. Qed.

Example float_of_string_tenth : Num.float_of_string "0.1" = Some 0.1%float.
Proof. vm_compute. reflexivity. Qed.

Example float_of_string_frac : Num.float_of_string "-12.345" = Some (-12.345)%float.
Proof. vm_compute. reflexivity. Qed.

Example float_of_string_dots : Num.float_of_string "1.2.3" = None.
Proof. vm_compute. reflexivity. Qed.

(** [numpy.int32] arithmetic wraps around. *)
Definition wrap32 (z : Z) : Z := ((z + 2 ^ 31) mod 2 ^ 32 - 2 ^ 31)%Z.

(** What [np.loadtxt(reorder, dtype=np.int32)] returns: a file holding one
    integer gives a 0-d array, a file holding one row or one column gives a
    1-d array.  (Files with several rows of several columns give a 2-d
    array; they are not covered here.) *)
Inductive ndarray : Set :=
  | Arr0 (v : Z)
  | Arr1 (vs : list Z).

(** [np.loadtxt(reorder, dtype=np.int32) - 1] *)
Definition minus_one (a : ndarray) : ndarray :=
  match a with
  | Arr0 v => Arr0 (wrap32 (v - 1))
  | Arr1 vs => Arr1 ((λ v, wrap32 (v - 1)) <$> vs)
  end.

(** ** Frame records *)

Module G96.
(** [class G96Mol]; [box] is the dataclass default [np.zeros(3)]. *)
Record G96Mol : Type := {
  title : string;
  timestep : Z * float;
  position : list (list float);
  velocity : list (list float);
  box : list float;
}.

(** The rows [__str__] formats: it reads components 0, 1 and 2 of each. *)
Definition rows (m : G96Mol) : list (list float) :=
  position m ++ velocity m ++ [box m].
End G96.

Module Gro.
(** The scaffold read from the template gro file. *)
Record Template : Type := {
  temp_title : string;
  temp_num_atoms : Z;
  temp_resi_num : list Z;
  temp_resi_name : list string;
  temp_atom_name : list string;
  temp_atom_num : list Z;
  temp_box_size : list float;
}.

(** [class GroMol].  [title] keeps the three values the f-string
    [f"{temp_title} Traj {cur_traj_idx}, t= {cur_time:.4f} ps"] is built
    from rather than the formatted text. *)
Record GroMol : Type := {
  title : string * Z * float;
  num_atoms : Z;
  resi_num : list Z;
  resi_name : list string;
  atom_name : list string;
  atom_num : list Z;
  xyz : list (list float);
  vel : list (list float);
  box_size : list float;
}.
End Gro.

(** ** Reordering (ReorderMapper) *)

Section Reorder.
Context {A B : Type}.

(** The loop
[[
  for (old_idx, new_idx) in enumerate(reorder_map):
      xyz[old_idx] = _xyz[new_idx]
      vel[old_idx] = _vel[new_idx]
]]
    where [_xyz] and [_vel] are the deep copies taken before it. *)
Fixpoint reorder_go (_xyz : list A) (_vel : list B) (old_idx : nat)
    (reorder_map : list Z) (xyz : list A) (vel : list B)
    : result (list A * list B) :=
  match reorder_map with
  | [] => Ok (xyz, vel)
  | new_idx :: rest =>
      x ← Py.item_Z _xyz new_idx;
      xyz' ← Py.set_item xyz old_idx x;
      v ← Py.item_Z _vel new_idx;
      vel' ← Py.set_item vel old_idx v;
      reorder_go _xyz _vel (S old_idx) rest xyz' vel'
  end.

(** [if reorder is not None: ...]; iterating a 0-d array is a TypeError. *)
Definition reorder_frame (reorder_map : option ndarray)
    (xyz : list A) (vel : list B) : result (list A * list B) :=
  match reorder_map with
  | None => Ok (xyz, vel)
  | Some (Arr0 _) => Raise TypeError
  | Some (Arr1 m) => reorder_go xyz vel 0 m xyz vel
  end.
End Reorder.

(** ** The scanner (TrajectoryParser) *)

Definition anchor_num_atoms : string := "NUMBER OF ATOMS".
Definition anchor_masses : string := "MASSES OF ATOMS".
Definition anchor_traj : string := "TRAJECTORY NUMBER".
Definition anchor_cycle : string := "THE CYCLE COUNT IS".

(** The variables of the [while] loop. *)
Record pstate (M : Type) : Type := {
  cur_line_idx : nat;
  cur_traj_idx : Z;
  num_atoms : Z;
  masses : list float;
  traj_list : list (list M);
}.
Arguments cur_line_idx {M} _.
Arguments cur_traj_idx {M} _.
Arguments num_atoms {M} _.
Arguments masses {M} _.
Arguments traj_list {M} _.

(** What the two programs do differently inside the loop. *)
Record Flavour (M : Type) : Type := {
  (** after [num_atoms = int(...)]: nothing (g96), or the assertion
      against the template (gro) *)
  check_num_atoms : Z → result ();
  (** [v_atom] from the fields of an atom line, the masses, and the atom's
      number [i] *)
  atom_velocity : list string → list float → nat → result (list float);
  (** the record built from [cur_traj_idx], [cur_cycle], [cur_time],
      [num_atoms], [xyz], [vel] *)
  make_mol : Z → Z → float → Z → list (list float) → list (list float) → result M;
  (** [str(frame)]: whether formatting succeeds *)
  str_mol : M → result ();
  (** the format's extension, and the number put in the name of the file
      written at position [traj_idx] of the list *)
  ext : string;
  suffix : nat → Z;
}.
Arguments check_num_atoms {M} _.
Arguments atom_velocity {M} _.
Arguments make_mol {M} _.
Arguments str_mol {M} _.
Arguments ext {M} _.
Arguments suffix {M} _.

(** [np.array(rows)] for a list of lists of floats: rows of unequal
    lengths are refused (NumPy 1.24 and later). *)
Definition np_array (rows : list (list float)) : result (list (list float)) :=
  match rows with
  | [] => Ok rows
  | r :: rest =>
      if forallb (λ r', length r' =? length r)%nat rest then Ok rows
      else Raise ValueError
  end.

(** Formatting reads [row[0]], [row[1]], [row[2]]. *)
Definition three_fields (row : list float) : result () :=
  if (3 <=? length row)%nat then Ok () else Raise IndexError.

(** [traj_list[-1].append(mol)] *)
Definition append_last {M} (tl : list (list M)) (mol : M) : result (list (list M)) :=
  match reverse tl with
  | [] => Raise IndexError
  | g :: gs => Ok (reverse gs ++ [g ++ [mol]])
  end.

Section Parser.
(** [int(s)] and [float(s)], [None] standing for ValueError. *)
Variable py_int : string → option Z.
Variable py_float : string → option float.

Definition to_int (s : string) : result Z := or_raise ValueError (py_int s).
Definition to_float (s : string) : result float := or_raise ValueError (py_float s).

(** *** The two flavours *)

(** venus2g96.py, lines 199-200 (numpy: a zero mass gives inf or nan):
[[
    p_atom = np.array([float(x) for x in arr[3:]])
    v_atom = 10.0 * p_atom / masses[i]
]] *)
Definition g96_velocity (arr : list string) (masses : list float) (i : nat)
    : result (list float) :=
  p_atom ← mapM to_float (drop 3 arr);
  m ← Py.item masses i;
  Ok ((λ p, 10.0 * p / m)%float <$> p_atom).

Definition g96 : Flavour G96.G96Mol := {|
  check_num_atoms _ := Ok ();
  atom_velocity := g96_velocity;
  make_mol _ cur_cycle cur_time _ xyz vel :=
    Ok {| G96.title := "";
          G96.timestep := (cur_cycle, cur_time);
          G96.position := xyz;
          G96.velocity := vel;
          G96.box := [0%float; 0%float; 0%float] |};
  str_mol m := mapM three_fields (G96.rows m) ≫= λ _, Ok ();
  ext := ".g96";
  suffix traj_idx := (Z.of_nat traj_idx + 1)%Z;
|}.

(** venus2gro.py, lines 223-225 (Python floats: a zero mass raises):
[[
    p_atom = arr[3:]
    v_atom = [10.0 * float(p) / masses[i] for p in p_atom]
]] *)
Definition gro_velocity (arr : list string) (masses : list float) (i : nat)
    : result (list float) :=
  mapM (λ p,
    x ← to_float p;
    m ← Py.item masses i;
    if PrimFloat.eqb m 0 then Raise ZeroDivisionError
    else Ok (10.0 * x / m)%float) (drop 3 arr).

(** [__str__] of GroMol indexes the template lists and the rows of the
    two arrays for [i] in [range(num_atoms)]. *)
Definition gro_str (m : Gro.GroMol) : result () :=
  mapM (λ i,
    _ ← Py.item (Gro.resi_num m) i;
    _ ← Py.item (Gro.resi_name m) i;
    _ ← Py.item (Gro.atom_name m) i;
    _ ← Py.item (Gro.atom_num m) i;
    x ← Py.item (Gro.xyz m) i;
    _ ← three_fields x;
    v ← Py.item (Gro.vel m) i;
    three_fields v) (seq 0 (Z.to_nat (Gro.num_atoms m))) ≫= λ _,
  three_fields (Gro.box_size m).

Definition gro (t : Gro.Template) : Flavour Gro.GroMol := {|
  check_num_atoms n :=
    if (n =? Gro.temp_num_atoms t)%Z then Ok () else Raise AssertionError;
  atom_velocity := gro_velocity;
  make_mol cur_traj_idx cur_cycle cur_time num_atoms xyz vel :=
    xyz' ← np_array xyz;
    vel' ← np_array vel;
    Ok {| Gro.title := (Gro.temp_title t, cur_traj_idx, cur_time);
          Gro.num_atoms := num_atoms;
          Gro.resi_num := Gro.temp_resi_num t;
          Gro.resi_name := Gro.temp_resi_name t;
          Gro.atom_name := Gro.temp_atom_name t;
          Gro.atom_num := Gro.temp_atom_num t;
          Gro.xyz := xyz';
          Gro.vel := vel';
          Gro.box_size := Gro.temp_box_size t |};
  str_mol := gro_str;
  ext := ".gro";
  suffix traj_idx := Z.of_nat traj_idx;
|}.

(** *** The loop *)

Context {M : Type}.
Variable F : Flavour M.
(** [reorder_map], when [reorder is not None] *)
Variable reorder_map : option ndarray.
(** [contents = open(venus_out, "r").readlines()] *)
Variable contents : list string.

Definition init : pstate M := {|
  cur_line_idx := 0;
  cur_traj_idx := 0;
  num_atoms := 0;
  masses := [];
  traj_list := [];
|}.

(** [# parse num_atoms] *)
Definition on_num_atoms (line : string) (st : pstate M) : result (pstate M) :=
  if Py.contains anchor_num_atoms line then
    n ← to_int (Py.last_field "=" line);
    _ ← check_num_atoms F n;
    Ok {| cur_line_idx := cur_line_idx st;
          cur_traj_idx := cur_traj_idx st;
          num_atoms := n;
          masses := masses st;
          traj_list := traj_list st |}
  else Ok st.

(** [# parse masses]: the cursor moves two lines down and [line] is
    rebound to the line found there, which the tests that follow see. *)
Definition on_masses (line : string) (st : pstate M) : result (string * pstate M) :=
  if Py.contains anchor_masses line then
    let idx := cur_line_idx st + 2 in
    line' ← Py.item contents idx;
    ms ← mapM to_float (Py.split line');
    Ok (line',
        {| cur_line_idx := idx;
           cur_traj_idx := cur_traj_idx st;
           num_atoms := num_atoms st;
           masses := ms;
           traj_list := traj_list st |})
  else Ok (line, st).

(** [# parse traj] *)
Definition on_traj (line : string) (st : pstate M) : result (pstate M) :=
  if Py.contains anchor_traj line then
    tok ← Py.item (Py.split line) 3;
    idx ← to_int tok;
    Ok {| cur_line_idx := cur_line_idx st;
          cur_traj_idx := idx;
          num_atoms := num_atoms st;
          masses := masses st;
          traj_list :=
            if (Z.of_nat (length (traj_list st)) <? idx)%Z
            then traj_list st ++ [[]]
            else traj_list st |}
  else Ok st.

(** One turn of [for i in range(num_atoms)]: atom [i] is on line [idx]. *)
Definition parse_atom (ms : list float) (idx i : nat)
    : result (list float * list float) :=
  line ← Py.item contents idx;
  let arr := Py.split line in
  xyz_atom ← mapM to_float (take 3 arr);
  v_atom ← atom_velocity F arr ms i;
  Ok ((λ x, 0.1 * x)%float <$> xyz_atom, v_atom).

(** The whole [for] loop, entered with the cursor at [idx]. *)
Definition atom_block (ms : list float) (idx n : nat)
    : result (list (list float * list float)) :=
  mapM (λ i, parse_atom ms (idx + 1 + i) i) (seq 0 n).

(** The arrays [xyz] and [vel] of one frame: the atom block, then the
    reordering when a map was given. *)
Definition frame_arrays (ms : list float) (idx n : nat)
    : result (list (list float) * list (list float)) :=
  atoms ← atom_block ms idx n;
  reorder_frame reorder_map (atoms.*1) (atoms.*2).

(** [# parse current traj] *)
Definition on_cycle (line : string) (st : pstate M) : result (pstate M) :=
  if Py.contains anchor_cycle line then
    c_tok ← Py.item (Py.split line) 4;
    cur_cycle ← to_int c_tok;
    t_tok ← Py.item (Py.split line) 6;
    t ← to_float t_tok;
    let cur_time := (t * 1.0e-02)%float in
    let idx := cur_line_idx st + 4 in
    let n := Z.to_nat (num_atoms st) in
    '(xyz, vel) ← frame_arrays (masses st) idx n;
    mol ← make_mol F (cur_traj_idx st) cur_cycle cur_time (num_atoms st) xyz vel;
    tl ← append_last (traj_list st) mol;
    Ok {| cur_line_idx := idx + n;
          cur_traj_idx := cur_traj_idx st;
          num_atoms := num_atoms st;
          masses := masses st;
          traj_list := tl |}
  else Ok st.

(** The body of the [while] loop up to the test for the cycle anchor:
    the line that test sees, and the state it is entered with. *)
Definition header (st : pstate M) : result (string * pstate M) :=
  line ← Py.item contents (cur_line_idx st);
  st1 ← on_num_atoms line st;
  '(line2, st2) ← on_masses line st1;
  st3 ← on_traj line2 st2;
  Ok (line2, st3).

(** The body of the [while] loop. *)
Definition iteration (st : pstate M) : result (pstate M) :=
  '(line, st3) ← header st;
  st4 ← on_cycle line st3;
  Ok {| cur_line_idx := cur_line_idx st4 + 1;
        cur_traj_idx := cur_traj_idx st4;
        num_atoms := num_atoms st4;
        masses := masses st4;
        traj_list := traj_list st4 |}.

(** [while cur_line_idx < num_lines], by recursion on the lines that are
    left: [rest] is [contents] from the cursor on when [skip] is 0, and
    [skip] counts the lines the last turn moved the cursor over. *)
Fixpoint scan (skip : nat) (rest : list string) (st : pstate M) : result (pstate M) :=
  match rest with
  | [] => Ok st
  | _ :: rest' =>
      match skip with
      | S k => scan k rest' st
      | O =>
          st' ← iteration st;
          scan (cur_line_idx st' - S (cur_line_idx st)) rest' st'
      end
  end.

(** The loop from state [st] on. *)
Definition while (st : pstate M) : result (pstate M) :=
  scan 0 (drop (cur_line_idx st) contents) st.

(** Section 1 of [venus2g96], section 2 of [venus2gro]. *)
Definition parse : result (list (list M)) :=
  traj_list <$> scan 0 contents init.
End Parser.

(** ** The template reader (venus2gro, section 1) *)

Section Template.
Variable py_int : string → option Z.
Variable py_float : string → option float.

(** [l.pop(0)] *)
Definition pop0 {A} (l : list A) : result (A * list A) :=
  match l with
  | [] => Raise IndexError
  | x :: l' => Ok (x, l')
  end.

(** [for _ in range(temp_num_atoms)]: one fixed-width line per atom. *)
Fixpoint template_atoms (n : nat) (temp_contents : list string) (t : Gro.Template)
    : result (list string * Gro.Template) :=
  match n with
  | O => Ok (temp_contents, t)
  | S n' =>
      '(line, temp_contents') ← pop0 temp_contents;
      rn ← to_int py_int (Py.slice 0 5 line);
      an ← to_int py_int (Py.slice 15 20 line);
      template_atoms n' temp_contents'
        {| Gro.temp_title := Gro.temp_title t;
           Gro.temp_num_atoms := Gro.temp_num_atoms t;
           Gro.temp_resi_num := Gro.temp_resi_num t ++ [rn];
           Gro.temp_resi_name := Gro.temp_resi_name t ++ [Py.rstrip (Py.slice 5 10 line)];
           Gro.temp_atom_name := Gro.temp_atom_name t ++ [Py.rstrip (Py.slice 10 15 line)];
           Gro.temp_atom_num := Gro.temp_atom_num t ++ [an];
           Gro.temp_box_size := Gro.temp_box_size t |}
  end.

Definition parse_template (temp_contents : list string) : result Gro.Template :=
  '(l1, temp_contents) ← pop0 temp_contents;
  '(l2, temp_contents) ← pop0 temp_contents;
  n ← to_int py_int l2;
  '(temp_contents, t) ← template_atoms (Z.to_nat n) temp_contents
      {| Gro.temp_title := Py.rstrip l1;
         Gro.temp_num_atoms := n;
         Gro.temp_resi_num := [];
         Gro.temp_resi_name := [];
         Gro.temp_atom_name := [];
         Gro.temp_atom_num := [];
         Gro.temp_box_size := [] |};
  '(l3, _) ← pop0 temp_contents;
  bs ← mapM (to_float py_float) (Py.split l3);
  Ok {| Gro.temp_title := Gro.temp_title t;
        Gro.temp_num_atoms := Gro.temp_num_atoms t;
        Gro.temp_resi_num := Gro.temp_resi_num t;
        Gro.temp_resi_name := Gro.temp_resi_name t;
        Gro.temp_atom_name := Gro.temp_atom_name t;
        Gro.temp_atom_num := Gro.temp_atom_num t;
        Gro.temp_box_size := bs |}.
End Template.

(** ** The file system *)

Inductive fs_op (C : Type) : Type :=
  | Rename (src dst : string)
  | OpenW (path : string)
  | WriteRec (path : string) (data : C).
Arguments Rename {C} src dst.
Arguments OpenW {C} path.
Arguments WriteRec {C} path data.

(** Files by path (a path without a slash is in the working directory),
    each holding the records written to it, and the operations performed so
    far, oldest first.  Two different path strings are two different
    files. *)
Record world (C : Type) : Type := {
  files : gmap string (list C);
  oplog : list (fs_op C);
}.
Arguments files {C} _.
Arguments oplog {C} _.

Section Fs.
Context {C : Type}.

(** [os.path.exists(path)] *)
Definition exists_ (w : world C) (path : string) : bool :=
  bool_decide (is_Some (files w !! path)).

(** [glob.glob(pathname)] for a pattern whose wildcards are all in its
    last component: the files of that directory whose name matches. *)
Definition glob (w : world C) (pathname : string) : list string :=
  filter (λ k, Os.dirname k = Os.dirname pathname ∧
               Os.fnmatch (Os.basename k) (Os.basename pathname) = true)
         (map_to_list (files w)).*1.

(** [os.rename(src, dst)] on POSIX: an existing file [dst] is replaced. *)
Definition rename (src dst : string) (w : world C) : world C :=
  {| files :=
       match files w !! src with
       | Some c => <[dst := c]> (delete src (files w))
       | None => files w
       end;
     oplog := oplog w ++ [Rename src dst] |}.

(** [open(path, "w")]: the file is created, or emptied. *)
Definition open_w (path : string) (w : world C) : world C :=
  {| files := <[path := []]> (files w);
     oplog := oplog w ++ [OpenW path] |}.

(** [f.writelines(...)] of one record. *)
Definition write (path : string) (data : C) (w : world C) : world C :=
  {| files := alter (λ c, c ++ [data]) path (files w);
     oplog := oplog w ++ [WriteRec path data] |}.
End Fs.

(** ** The writer (TrajectoryWriter) *)

Section Writer.
Context {M : Type}.
Variable F : Flavour M.

(** [_auto_backup_file(file)] *)
Definition _auto_backup_file (file : string) (w : world M) : world M :=
  if negb (exists_ w file) then w
  else
    let file_dir := Os.dirname file in
    let file_name := Os.basename file in
    let stem := Py.replace (ext F) "" file_name in
    let old_file_pattern := "#" +:+ stem +:+ ".*" +:+ ext F +:+ "#" in
    let old_files := glob w (Os.join file_dir old_file_pattern) in
    let num_old_files := length old_files in
    let new_backup_file_name :=
      "#" +:+ stem +:+ "." +:+ Py.str_int (Z.of_nat num_old_files + 1)%Z
          +:+ ext F +:+ "#" in
    rename file new_backup_file_name w.

(** [for frame in traj: f.writelines(f"{str(frame)}\n")] *)
Fixpoint write_frames (name : string) (traj : list M) (w : world M)
    : result () * world M :=
  match traj with
  | [] => (Ok (), w)
  | frame :: rest =>
      match str_mol F frame with
      | Raise e => (Raise e, w)
      | Ok _ => write_frames name rest (write name frame w)
      end
  end.

(** [out.replace(".g96", f"_{traj_idx + 1}.g96")], and for gro
    [out.replace(".gro", f"_{traj_idx}.gro")]. *)
Definition traj_name (out : string) (traj_idx : nat) : string :=
  Py.replace (ext F) ("_" +:+ Py.str_int (suffix F traj_idx) +:+ ext F) out.

(** [for (traj_idx, traj) in enumerate(traj_list)], from [traj_idx] on;
    [names] is the list of paths returned. *)
Fixpoint write_trajs (out : string) (traj_idx : nat) (trajs : list (list M))
    (names : list string) (w : world M) : result (list string) * world M :=
  match trajs with
  | [] => (Ok names, w)
  | traj :: rest =>
      let name := traj_name out traj_idx in
      let w1 := _auto_backup_file name w in
      let w2 := open_w name w1 in
      match write_frames name traj w2 with
      | (Raise e, w3) => (Raise e, w3)
      | (Ok _, w3) => write_trajs out (S traj_idx) rest (names ++ [name]) w3
      end
  end.

(** [if not split: traj_list = np.concatenate(traj_list).reshape(1, -1).tolist()];
    [np.concatenate] refuses an empty list of arrays. *)
Definition regroup (split : bool) (trajs : list (list M)) : result (list (list M)) :=
  if split then Ok trajs
  else
    match trajs with
    | [] => Raise ValueError
    | _ => Ok [concat trajs]
    end.

(** Section 2 of [venus2g96], section 3 of [venus2gro]. *)
Definition write_phase (out : string) (split : bool) (trajs : list (list M))
    (w : world M) : result (list string) * world M :=
  match regroup split trajs with
  | Raise e => (Raise e, w)
  | Ok trajs' => write_trajs out 0 trajs' [] w
  end.
End Writer.

(** ** The two programs *)

Section Programs.
Variable py_int : string → option Z.
Variable py_float : string → option float.

(** The parsing phase of [venus2g96]: [reorder] is what [np.loadtxt]
    read, if a reorder file was given; [venus_out] the lines of the
    VENUS96 output. *)
Definition venus2g96_parse (venus_out : list string) (reorder : option ndarray)
    : result (list (list G96.G96Mol)) :=
  parse py_int py_float (g96 py_float) (minus_one <$> reorder) venus_out.

Definition venus2g96 (venus_out : list string) (out_g96 : string)
    (reorder : option ndarray) (split : bool) (w : world G96.G96Mol)
    : result (list string) * world G96.G96Mol :=
  match venus2g96_parse venus_out reorder with
  | Raise e => (Raise e, w)
  | Ok traj_list => write_phase (g96 py_float) out_g96 split traj_list w
  end.

(** The parsing phase of [venus2gro]: the template first, then the
    VENUS96 output. *)
Definition venus2gro_parse (venus_out template_gro : list string)
    (reorder : option ndarray) : result (Gro.Template * list (list Gro.GroMol)) :=
  t ← parse_template py_int py_float template_gro;
  traj_list ← parse py_int py_float (gro py_float t) (minus_one <$> reorder) venus_out;
  Ok (t, traj_list).

Definition venus2gro (venus_out template_gro : list string) (out_gro : string)
    (reorder : option ndarray) (split : bool) (w : world Gro.GroMol)
    : result (list string) * world Gro.GroMol :=
  match venus2gro_parse venus_out template_gro reorder with
  | Raise e => (Raise e, w)
  | Ok (t, traj_list) => write_phase (gro py_float t) out_gro split traj_list w
  end.
End Programs.

(** * Properties *)

(** ** The exception monad *)

Lemma bind_Ok {A B} (m : result A) (f : A → result B) (b : B) :
  m ≫= f = Ok b ↔ ∃ a, m = Ok a ∧ f a = Ok b.
Proof.
  destruct m as [a|e]; simpl; split.
  - intros H. by exists a.
  - by intros (a' & [= <-] & H).
  - discriminate.
  - by intros (a' & [=] & _).
Qed.

Lemma bind_raises_l {A B} (m : result A) (f : A → result B) :
  raises m → raises (m ≫= f).
Proof. intros [e ->]. by exists e. Qed.

Lemma bind_raises_r {A B} (m : result A) (f : A → result B) (a : A) :
  m = Ok a → raises (f a) → raises (m ≫= f).
Proof. by intros ->. Qed.

Lemma fmap_raises {A B} (m : result A) (f : A → B) :
  raises m → raises (f <$> m).
Proof. intros [e ->]. by exists e. Qed.

Lemma raises_not_Ok {A} (m : result A) (a : A) : raises m → m ≠ Ok a.
Proof. intros [e ->]. discriminate. Qed.

Lemma Ok_or_raises {A} (m : result A) : (∃ a, m = Ok a) ∨ raises m.
Proof. destruct m as [a|e]; [left|right]; eauto. by exists e. Qed.

Lemma or_raise_Ok {A} (e : exn) (o : option A) (a : A) :
  or_raise e o = Ok a ↔ o = Some a.
Proof. destruct o; simpl; split; congruence. Qed.

(** Inversion of a successful sequence of binds. *)
Ltac inv_ok H :=
  repeat match type of H with
  | Ok _ = Ok _ => injection H as H
  | (_ ≫= _) = Ok _ =>
      let a := fresh "a" in
      let Ha := fresh "Ha" in
      apply bind_Ok in H as (a & Ha & H)
  | (let '(_, _) := ?p in _) = Ok _ => destruct p
  | (if ?b then _ else _) = Ok _ =>
      let Hb := fresh "Hb" in destruct b eqn:Hb; [|try discriminate H]
  end.

Section MapM.
Context {A B : Type} (f : A → result B).

Lemma mapM_nil : mapM f [] = Ok [].
Proof. reflexivity. Qed.

Lemma mapM_cons (x : A) (l : list A) :
  mapM f (x :: l) = y ← f x; k ← mapM f l; Ok (y :: k).
Proof. reflexivity. Qed.

Lemma mapM_Ok_lookup (l : list A) (k : list B) :
  mapM f l = Ok k →
  length k = length l ∧ ∀ i x, l !! i = Some x → ∃ y, k !! i = Some y ∧ f x = Ok y.
Proof.
  revert k. induction l as [|x l IH]; intros k H.
  - injection H as <-. split; [done|]. intros i x Hx. by rewrite lookup_nil in Hx.
  - rewrite mapM_cons in H. inv_ok H. subst k.
    destruct (IH _ Ha0) as [Hlen Hl]. split; [simpl; by f_equal|].
    intros [|i] x' Hx'; simpl in *.
    + injection Hx' as <-. eauto.
    + eauto.
Qed.

Lemma mapM_Ok_length (l : list A) (k : list B) :
  mapM f l = Ok k → length k = length l.
Proof. intros H. by apply mapM_Ok_lookup in H as [? _]. Qed.

(** One failing element is enough for the whole traversal to fail. *)
Lemma mapM_raises (l : list A) (i : nat) (x : A) :
  l !! i = Some x → raises (f x) → raises (mapM f l).
Proof.
  intros Hx Hf. destruct (Ok_or_raises (mapM f l)) as [[k Hk]|]; [|done].
  apply mapM_Ok_lookup in Hk as [_ Hk]. destruct (Hk _ _ Hx) as (y & _ & Hy).
  by apply raises_not_Ok with (a := y) in Hf.
Qed.

Lemma mapM_all_Ok (l : list A) (g : A → B) :
  (∀ x, x ∈ l → f x = Ok (g x)) → mapM f l = Ok (g <$> l).
Proof.
  induction l as [|x l IH]; intros H; [done|].
  rewrite mapM_cons, (H x) by left. simpl.
  rewrite IH; [done|]. intros y Hy. apply H. by right.
Qed.
End MapM.

Lemma mapM_ext_in {A B} (f g : A → result B) (l : list A) :
  (∀ x, x ∈ l → f x = g x) → mapM f l = mapM g l.
Proof.
  induction l as [|x l IH]; intros H; [done|].
  rewrite !mapM_cons, (H x) by left.
  rewrite IH; [done|]. intros y Hy. apply H. by right.
Qed.

(** ** Indexing *)

Lemma norm_index_lt (len : nat) (j : Z) (i : nat) :
  Py.norm_index len j = Some i → i < len.
Proof.
  unfold Py.norm_index. intros H.
  repeat case_match; simplify_eq; lia.
Qed.

Lemma norm_index_is_Some (len : nat) (j : Z) :
  is_Some (Py.norm_index len j) ↔ (- Z.of_nat len ≤ j < Z.of_nat len)%Z.
Proof.
  unfold Py.norm_index. split.
  - intros [i H]. repeat case_match; simplify_eq; lia.
  - intros H. repeat case_match; eauto; lia.
Qed.

Lemma norm_index_of_nat (len j : nat) :
  j < len → Py.norm_index len (Z.of_nat j) = Some j.
Proof.
  intros H. unfold Py.norm_index.
  repeat case_match; try lia. by rewrite Nat2Z.id.
Qed.

Lemma item_Z_Ok {A} (l : list A) (j : Z) (i : nat) :
  Py.norm_index (length l) j = Some i → ∃ x, l !! i = Some x ∧ Py.item_Z l j = Ok x.
Proof.
  intros H. pose proof (norm_index_lt _ _ _ H) as Hi.
  destruct (lookup_lt_is_Some_2 l i Hi) as [x Hx].
  exists x. split; [done|]. unfold Py.item_Z. rewrite H. simpl. by rewrite Hx.
Qed.

Lemma item_Z_raises {A} (l : list A) (j : Z) :
  Py.norm_index (length l) j = None → Py.item_Z l j = Raise IndexError.
Proof. intros H. unfold Py.item_Z. by rewrite H. Qed.

Lemma set_item_Ok {A} (l : list A) (i : nat) (x : A) :
  i < length l → Py.set_item l i x = Ok (<[i := x]> l).
Proof. intros H. unfold Py.set_item. by rewrite (proj2 (Nat.ltb_lt _ _) H). Qed.

Lemma set_item_raises {A} (l : list A) (i : nat) (x : A) :
  length l ≤ i → Py.set_item l i x = Raise IndexError.
Proof. intros H. unfold Py.set_item. by rewrite (proj2 (Nat.ltb_ge _ _) H). Qed.

Lemma item_Ok {A} (l : list A) (i : nat) (x : A) :
  Py.item l i = Ok x ↔ l !! i = Some x.
Proof. apply or_raise_Ok. Qed.

Lemma item_raises {A} (l : list A) (i : nat) :
  l !! i = None → Py.item l i = Raise IndexError.
Proof. intros H. unfold Py.item. by rewrite H. Qed.

Lemma append_last_snoc {M} (gs : list (list M)) (g : list M) (mol : M) :
  append_last (gs ++ [g]) mol = Ok (gs ++ [g ++ [mol]]).
Proof.
  unfold append_last. rewrite reverse_app, reverse_singleton. simpl.
  by rewrite reverse_involutive.
Qed.

Lemma append_last_Ok {M} (tl tl' : list (list M)) (mol : M) :
  append_last tl mol = Ok tl' →
  ∃ gs g, tl = gs ++ [g] ∧ tl' = gs ++ [g ++ [mol]].
Proof.
  unfold append_last. destruct (reverse tl) as [|g gs] eqn:Hrev; [done|].
  intros [= <-]. exists (reverse gs), g. split; [|done].
  apply (inj reverse). by rewrite reverse_app, reverse_singleton, reverse_involutive.
Qed.

(** ** The reordering loop *)

Section ReorderFacts.
Context {A B : Type}.
Implicit Types (xyz _xyz : list A) (vel _vel : list B) (m : list Z).

(** What slot [i] holds after the loop has run over [m] from [old] on:
    the snapshot's element picked by the map inside the range the loop
    covered, the previous element outside it. *)
Definition picked {X} (snapshot current : list X) (old : nat) m (i : nat) : option X :=
  if decide (old ≤ i < old + length m) then
    j ← m !! (i - old);
    k ← Py.norm_index (length snapshot) j;
    snapshot !! k
  else current !! i.

Lemma reorder_go_Ok _xyz _vel m : ∀ old xyz vel,
  length xyz = length _xyz → length vel = length _xyz →
  length _vel = length _xyz →
  old + length m ≤ length _xyz →
  Forall (λ j, is_Some (Py.norm_index (length _xyz) j)) m →
  ∃ xyz' vel',
    reorder_go _xyz _vel old m xyz vel = Ok (xyz', vel') ∧
    length xyz' = length _xyz ∧ length vel' = length _xyz ∧
    ∀ i, xyz' !! i = picked _xyz xyz old m i ∧ vel' !! i = picked _vel vel old m i.
Proof.
  induction m as [|j m IH]; intros old xyz vel Hx Hv Hv' Hlen Hall.
  - exists xyz, vel. repeat split; try done; unfold picked;
      case_decide; try done; simpl in *; lia.
  - apply Forall_cons in Hall as [[k Hk] Hall]. simpl in Hlen.
    destruct (item_Z_Ok _xyz j k Hk) as (x & Hxk & Hix).
    pose proof Hk as Hk'. rewrite <- Hv' in Hk'.
    destruct (item_Z_Ok _vel j k Hk') as (v & Hvk & Hiv).
    destruct (IH (S old) (<[old := x]> xyz) (<[old := v]> vel))
      as (xyz' & vel' & Hgo & Hx' & Hv'' & Hpick);
      rewrite ?length_insert; try done; try lia.
    exists xyz', vel'. simpl.
    rewrite Hix. simpl. rewrite set_item_Ok by lia. simpl.
    rewrite Hiv. simpl. rewrite set_item_Ok by lia. simpl.
    split; [done|]. split; [done|]. split; [done|].
    intros i. destruct (Hpick i) as [Hp1 Hp2]. rewrite Hp1, Hp2.
    unfold picked. simpl. rewrite Hv'.
    destruct (decide (i = old)) as [->|Hne].
    + rewrite Nat.sub_diag. simpl. rewrite Hk. simpl.
      repeat case_decide; try lia.
      rewrite !list_lookup_insert_eq by lia. by rewrite Hxk, Hvk.
    + repeat case_decide; try lia.
      * replace (i - old) with (S (i - S old)) by lia. done.
      * by rewrite !list_lookup_insert_ne by done.
Qed.

Lemma reorder_go_raises _xyz _vel m : ∀ old xyz vel,
  length xyz = length _xyz → length vel = length _xyz →
  length _vel = length _xyz →
  old ≤ length _xyz →
  length _xyz < old + length m ∨
    Exists (λ j, Py.norm_index (length _xyz) j = None) m →
  reorder_go _xyz _vel old m xyz vel = Raise IndexError.
Proof.
  induction m as [|j m IH]; intros old xyz vel Hx Hv Hv' Hold Hbad.
  - destruct Hbad as [Hbad|Hbad]; [simpl in *; lia | by apply Exists_nil in Hbad].
  - simpl. destruct (Py.norm_index (length _xyz) j) as [k|] eqn:Hk.
    2:{ rewrite (item_Z_raises _xyz) by done. reflexivity. }
    destruct (item_Z_Ok _xyz j k Hk) as (x & Hxk & ->). simpl.
    destruct (decide (old < length xyz)) as [Hlt|Hge].
    2:{ rewrite set_item_raises by lia. reflexivity. }
    rewrite set_item_Ok by done. simpl.
    pose proof Hk as Hk'. rewrite <- Hv' in Hk'.
    destruct (item_Z_Ok _vel j k Hk') as (v & Hvk & ->). simpl.
    rewrite set_item_Ok by lia. simpl.
    apply IH; rewrite ?length_insert; try done; [lia|].
    destruct Hbad as [Hbad|Hbad]; [left; simpl in *; lia|].
    apply Exists_cons in Hbad as [Hbad|Hbad]; [congruence | by right].
Qed.
End ReorderFacts.

(** ** The loop *)

(** [raises (m ≫= f)]: either [m] raises, or it returns and the rest is
    left to show. *)
Ltac step_raises :=
  match goal with
  | |- raises (?m ≫= _) =>
      let a := fresh "a" in
      let Ha := fresh "Ha" in
      let Hr := fresh "Hr" in
      destruct (Ok_or_raises m) as [[a Ha]|Hr];
      [rewrite Ha; simpl | by apply bind_raises_l]
  end.

Section ParserFacts.
Variable py_int : string → option Z.
Variable py_float : string → option float.
Context {M : Type}.
Variable F : Flavour M.
Variable reorder_map : option ndarray.
Variable contents : list string.

Local Abbreviation header := (header py_int py_float F contents).
Local Abbreviation on_cycle := (on_cycle py_int py_float F reorder_map contents).
Local Abbreviation iteration := (iteration py_int py_float F reorder_map contents).
Local Abbreviation scan := (scan py_int py_float F reorder_map contents).
Local Abbreviation while := (while py_int py_float F reorder_map contents).
Local Abbreviation parse := (parse py_int py_float F reorder_map contents).

Implicit Types (st : pstate M) (line : string).

Lemma on_num_atoms_fields line st st' :
  on_num_atoms py_int F line st = Ok st' →
  cur_line_idx st' = cur_line_idx st ∧ masses st' = masses st ∧
  traj_list st' = traj_list st ∧ cur_traj_idx st' = cur_traj_idx st.
Proof. unfold on_num_atoms. intros H. inv_ok H; by subst. Qed.

Lemma on_masses_fields line st line' st' :
  on_masses py_float contents line st = Ok (line', st') →
  cur_line_idx st ≤ cur_line_idx st' ∧ num_atoms st' = num_atoms st ∧
  traj_list st' = traj_list st ∧ cur_traj_idx st' = cur_traj_idx st.
Proof.
  unfold on_masses. intros H. inv_ok H; simplify_eq; simpl; repeat split; lia.
Qed.

Lemma on_traj_fields line st st' :
  on_traj py_int line st = Ok st' →
  cur_line_idx st' = cur_line_idx st ∧ num_atoms st' = num_atoms st ∧
  masses st' = masses st ∧
  (traj_list st' = traj_list st ∨ traj_list st' = traj_list st ++ [[]]).
Proof.
  unfold on_traj. intros H. inv_ok H; subst; simpl; repeat split; auto.
  case_match; auto.
Qed.

Lemma on_cycle_idx line st st' :
  on_cycle line st = Ok st' → cur_line_idx st ≤ cur_line_idx st'.
Proof.
  unfold on_cycle. intros H. inv_ok H; subst; simpl; lia.
Qed.

Lemma header_idx st line st1 :
  header st = Ok (line, st1) →
  cur_line_idx st < length contents ∧ cur_line_idx st ≤ cur_line_idx st1.
Proof.
  unfold header. intros H. inv_ok H. simplify_eq.
  apply item_Ok, lookup_lt_Some in Ha.
  apply on_num_atoms_fields in Ha0 as (? & _).
  apply on_masses_fields in Ha1 as (? & _).
  apply on_traj_fields in Ha2 as (? & _).
  lia.
Qed.

(** Every turn of the loop moves the cursor forward. *)
Lemma iteration_idx st st' :
  iteration st = Ok st' → cur_line_idx st < cur_line_idx st'.
Proof.
  unfold iteration. intros H. inv_ok H. subst st'. simpl.
  apply header_idx in Ha as [_ ?]. apply on_cycle_idx in Ha0. lia.
Qed.

Lemma scan_skip (k : nat) (rest : list string) st :
  scan k rest st = scan 0 (drop k rest) st.
Proof.
  revert k. induction rest as [|l rest IH]; intros [|k]; try done.
  simpl. apply IH.
Qed.

(** The loop as the source has it: test the cursor, run the body, repeat. *)
Lemma while_unfold st :
  while st =
    if decide (cur_line_idx st < length contents)
    then iteration st ≫= while
    else Ok st.
Proof.
  unfold while. case_decide as Hlt.
  - destruct (lookup_lt_is_Some_2 contents _ Hlt) as [l Hl].
    rewrite (drop_S _ _ _ Hl). simpl.
    destruct (iteration st) as [st'|e] eqn:Hit; [simpl|done].
    apply iteration_idx in Hit.
    rewrite scan_skip, drop_drop. f_equal. f_equal. lia.
  - by rewrite drop_ge by lia.
Qed.

Lemma parse_while : parse = traj_list <$> while init.
Proof. reflexivity. Qed.

(** The states the loop test sees in the run over [contents]. *)
Inductive reaches : pstate M → Prop :=
  | reaches_init : reaches init
  | reaches_step st st' :
      reaches st → cur_line_idx st < length contents →
      iteration st = Ok st' → reaches st'.

Lemma reaches_while st : reaches st → while init = while st.
Proof.
  induction 1 as [|st st' _ IH Hlt Hit]; [done|].
  rewrite IH, (while_unfold st), decide_True by done. by rewrite Hit.
Qed.

(** An exception in a turn of the loop is the outcome of the parse. *)
Lemma parse_raises_at st :
  reaches st → cur_line_idx st < length contents →
  raises (iteration st) → raises parse.
Proof.
  intros Hr Hlt [e He]. rewrite parse_while, (reaches_while st Hr).
  rewrite while_unfold, decide_True, He by done. by exists e.
Qed.

Lemma iteration_raises_cycle st line st1 :
  header st = Ok (line, st1) → raises (on_cycle line st1) → raises (iteration st).
Proof.
  intros Hh Hc. unfold iteration. rewrite Hh. simpl.
  by apply bind_raises_l.
Qed.

(** *** Frames need masses *)

(** The velocity of an atom cannot be computed from the fields [arr]
    when the atom has no mass. *)
Definition needs_mass (arr : list string) : Prop :=
  ∀ (ms : list float) (i : nat),
    ms !! i = None → raises (atom_velocity F arr ms i).

Lemma atom_block_length ms idx n atoms :
  atom_block py_float F contents ms idx n = Ok atoms → length atoms = n.
Proof.
  intros H. apply mapM_Ok_length in H. by rewrite length_seq in H.
Qed.

Lemma atom_block_raises ms idx n :
  length ms < n →
  (∀ l, contents !! (idx + 1 + length ms) = Some l → needs_mass (Py.split l)) →
  raises (atom_block py_float F contents ms idx n).
Proof.
  intros Hn Hneed. unfold atom_block.
  apply mapM_raises with (i := length ms) (x := length ms).
  { by apply lookup_seq_lt. }
  unfold parse_atom.
  destruct (contents !! (idx + 1 + length ms)) as [l|] eqn:Hl.
  2:{ rewrite item_raises by done. by exists IndexError. }
  rewrite (proj2 (item_Ok _ _ _) Hl). simpl.
  step_raises. apply bind_raises_l, (Hneed l eq_refl).
  by apply lookup_ge_None.
Qed.

Lemma on_cycle_raises line st :
  Py.contains anchor_cycle line = true →
  length (masses st) < Z.to_nat (num_atoms st) →
  (∀ l, contents !! (cur_line_idx st + 5 + length (masses st)) = Some l →
        needs_mass (Py.split l)) →
  raises (on_cycle line st).
Proof.
  intros Hc Hn Hneed. unfold on_cycle. rewrite Hc.
  do 4 step_raises.
  apply bind_raises_l, bind_raises_l, atom_block_raises; [done|].
  intros l Hl. apply Hneed. rewrite <- Hl. f_equal. lia.
Qed.

(** A cycle anchor met with fewer masses than atoms ends the parse. *)
Lemma cycle_needs_masses st line st1 :
  reaches st → header st = Ok (line, st1) →
  Py.contains anchor_cycle line = true →
  length (masses st1) < Z.to_nat (num_atoms st1) →
  (∀ l, contents !! (cur_line_idx st1 + 5 + length (masses st1)) = Some l →
        needs_mass (Py.split l)) →
  raises parse.
Proof.
  intros Hr Hh Hc Hn Hneed.
  apply (parse_raises_at st Hr).
  - by apply header_idx in Hh as [? _].
  - apply (iteration_raises_cycle _ _ _ Hh), on_cycle_raises; done.
Qed.
End ParserFacts.

Lemma g96_needs_mass py_float (arr : list string) :
  needs_mass (g96 py_float) arr.
Proof.
  intros ms i Hi. simpl. unfold g96_velocity.
  step_raises. rewrite item_raises by done. by exists IndexError.
Qed.

Lemma gro_needs_mass py_float (t : Gro.Template) (arr : list string) :
  3 < length arr → needs_mass (gro py_float t) arr.
Proof.
  intros Hlen ms i Hi. simpl. unfold gro_velocity.
  destruct (lookup_lt_is_Some_2 (drop 3 arr) 0) as [p Hp].
  { rewrite length_drop. lia. }
  apply mapM_raises with (i := 0) (x := p); [done|].
  step_raises. rewrite item_raises by done. by exists IndexError.
Qed.

(** * The specification, statement by statement *)

(** ** C1: the end-to-end scenario *)

(** Lines as [readlines] returns them: each ends with its newline. *)
Definition nl : string := String "010"%char EmptyString.
Definition text (lines : list string) : list string := (λ l, l +:+ nl) <$> lines.

(** Two atoms, one mass line, trajectory 1, one cycle block (cycle 100, raw
    time 50.0), the four lines the scanner skips, two atom lines. *)
Definition scenario : list string := text [
  " NUMBER OF ATOMS = 2";
  " MASSES OF ATOMS";
  "";
  " 1.0 2.0";
  " TRAJECTORY NUMBER IS 1";
  " THE CYCLE COUNT IS 100 TIME: 50.0";
  "";
  " Q AND P";
  "";
  "";
  " 1.0 2.0 3.0 0.0 0.0 0.0";
  " 4.0 5.0 6.0 2.0 0.0 0.0" ].

(** The frame with the decimal values read as binary64 literals. *)
Definition scenario_stated : G96.G96Mol := {|
  G96.title := "";
  G96.timestep := (100%Z, 0.5%float);
  G96.position := [[0.1; 0.2; 0.3]; [0.4; 0.5; 0.6]]%float;
  G96.velocity := [[0; 0; 0]; [10; 0; 0]]%float;
  G96.box := [0; 0; 0]%float;
|}.

(** The frame the parser builds: [0.1 * 3.0] and [0.1 * 6.0] round to the
    binary64 numbers just above the literals [0.3] and [0.6]. *)
Definition scenario_frame : G96.G96Mol := {|
  G96.title := "";
  G96.timestep := (100%Z, 0.5%float);
  G96.position :=
    [[0.1; 0.2; 0x1.3333333333334p-2]; [0.4; 0.5; 0x1.3333333333334p-1]]%float;
  G96.velocity := [[0; 0; 0]; [10; 0; 0]]%float;
  G96.box := [0; 0; 0]%float;
|}.

(** [x] and [y] differ by at most [2^-53]. *)
Definition close (x y : float) : Prop :=
  PrimFloat.leb (PrimFloat.abs (x - y)) 0x1p-53 = true.

(** The third coordinate of the first atom of the only frame, compared
    with a binary64 value. *)
Definition first_z_is (z : float) (r : result (list (list G96.G96Mol))) : bool :=
  match r with
  | Ok [[m]] =>
      match G96.position m with
      | (_ :: _ :: z' :: _) :: _ => PrimFloat.eqb z' z
      | _ => false
      end
  | _ => false
  end.

(** C1, as stated, fails: the frame parsed from the scenario is not the
    frame with positions [(0.1,0.2,0.3),(0.4,0.5,0.6)] as binary64
    literals. *)
Lemma C1_scenario_not_stated :
  venus2g96_parse Num.int_of_string Num.float_of_string scenario None
    ≠ Ok [[scenario_stated]].
Proof.
  intros H. apply (f_equal (first_z_is 0.3)) in H.
  vm_compute in H. discriminate H.
Qed.

(** C1, amended: the scenario yields exactly one trajectory holding exactly
    one frame, with cycle 100, time 0.5 and velocities [(0,0,0),(10,0,0)]
    exactly as stated, and with the positions [0.1 * raw] computed in
    binary64, each within [2^-53] of the stated decimal. *)
Theorem C1_scenario_frame :
  venus2g96_parse Num.int_of_string Num.float_of_string scenario None
    = Ok [[scenario_frame]] ∧
  G96.timestep scenario_frame = G96.timestep scenario_stated ∧
  G96.velocity scenario_frame = G96.velocity scenario_stated ∧
  Forall2 (Forall2 close) (G96.position scenario_frame) (G96.position scenario_stated).
Proof.
  split; [vm_compute; reflexivity|].
  split; [reflexivity|]. split; [reflexivity|].
  repeat constructor.
Qed.

(** ** C4: reordering by a permutation *)


(** *** The same map for every frame *)



Section SameMap.
Variable py_int : string → option Z.
Variable py_float : string → option float.
Variable m : list Z.
Variable contents : list string.

Local Abbreviation plain := (pstate G96.G96Mol).







End SameMap.



Example reorder_example :
  reorder_frame (Some (Arr1 [2; 0; 1]%Z)) ["a"; "b"; "c"] [10; 20; 30]
    = Ok (["c"; "a"; "b"], [30; 10; 20]).
Proof. reflexivity. Qed.

(** ** C6: maps that are not permutations *)

(** Slot [i] after reordering by [m]: Python's [xyz[m[i]]] while the map
    lasts (a negative entry counting from the end), the old [xyz[i]]
    beyond it. *)
Definition reordered {X} (m : list Z) (xyz : list X) (i : nat) : option X :=
  match m !! i with
  | Some j => k ← Py.norm_index (length xyz) j; xyz !! k
  | None => xyz !! i
  end.

Lemma picked_reordered {X} (m : list Z) (xyz : list X) (i : nat) :
  picked xyz xyz 0 m i = reordered m xyz i.
Proof.
  unfold picked, reordered. rewrite Nat.sub_0_r. case_decide as Hi.
  - destruct (lookup_lt_is_Some_2 m i) as [j Hj]; [lia|]. by rewrite Hj.
  - by rewrite (lookup_ge_None_2 m i) by lia.
Qed.

(** The map [1 1] of a reorder file, applied to the two atoms of the
    scenario: both slots receive the first atom. *)
Definition scenario_duplicated : G96.G96Mol := {|
  G96.title := "";
  G96.timestep := (100%Z, 0.5%float);
  G96.position :=
    [[0.1; 0.2; 0x1.3333333333334p-2]; [0.1; 0.2; 0x1.3333333333334p-2]]%float;
  G96.velocity := [[0; 0; 0]; [0; 0; 0]]%float;
  G96.box := [0; 0; 0]%float;
|}.

(** C6, as stated, fails: a reorder file holding [1 1] for two atoms is no
    bijection, and the conversion applies it without any error. *)
Lemma C6_duplicate_map_applied :
  venus2g96_parse Num.int_of_string Num.float_of_string scenario
    (Some (Arr1 [1; 1]%Z)) = Ok [[scenario_duplicated]].
Proof. vm_compute. reflexivity. Qed.

(** C6, amended: the map is not validated.  A 1-d map is applied without
    error exactly when it has at most [N] entries, all within
    [-N .. N-1]: slot [i] then receives [xyz[map[i]]] with Python's
    indexing, and slots beyond the map keep their value; duplicates are
    accepted.  Any other 1-d map raises IndexError. *)
Theorem C6_reorder_unvalidated {A B} (xyz : list A) (vel : list B) (m : list Z) :
  length vel = length xyz →
  let N := length xyz in
  let fits := length m ≤ N ∧ Forall (λ j, - Z.of_nat N ≤ j < Z.of_nat N)%Z m in
  (fits → ∃ xyz' vel',
     reorder_frame (Some (Arr1 m)) xyz vel = Ok (xyz', vel') ∧
     ∀ i, xyz' !! i = reordered m xyz i ∧ vel' !! i = reordered m vel i) ∧
  (¬ fits → reorder_frame (Some (Arr1 m)) xyz vel = Raise IndexError).
Proof.
  intros Hv N fits. split.
  - intros [Hlen Hall].
    destruct (reorder_go_Ok xyz vel m 0 xyz vel)
      as (xyz' & vel' & Hgo & _ & _ & Hpick); try done.
    { eapply Forall_impl; [exact Hall|]. intros j Hj. by apply norm_index_is_Some. }
    exists xyz', vel'. split; [done|]. intros i.
    destruct (Hpick i) as [-> ->]. by rewrite !picked_reordered.
  - intros Hnot. simpl. apply reorder_go_raises; try done; [lia|].
    destruct (decide (length m ≤ N)) as [Hlen|Hlen]; [right|left; lia].
    assert (Hex : Exists (not ∘ (λ j, is_Some (Py.norm_index N j))) m).
    { apply not_Forall_Exists; [intros j; apply _|].
      intros Hall. apply Hnot. split; [done|].
      eapply Forall_impl; [exact Hall|]. intros j Hj.
      by apply norm_index_is_Some. }
    eapply Exists_impl; [exact Hex|]. intros j Hj. simpl in Hj.
    destruct (Py.norm_index N j) eqn:E; [|done].
    exfalso. apply Hj. eauto.
Qed.

Lemma C6_reorder_unvalidated_witness :
  ∃ xyz' vel',
    reorder_frame (Some (Arr1 [0; -1]%Z)) ["a"; "b"; "c"] [10; 20; 30]
      = Ok (xyz', vel') ∧
    ∀ i, xyz' !! i = reordered [0; -1]%Z ["a"; "b"; "c"] i ∧
         vel' !! i = reordered [0; -1]%Z [10; 20; 30] i.
Proof.
  refine (proj1 (C6_reorder_unvalidated ["a"; "b"; "c"] [10; 20; 30]
                   [0; -1]%Z eq_refl) _).
  split; [simpl; lia|].
  repeat constructor; simpl; lia.
Defined.

Example reorder_short_negative :
  reorder_frame (Some (Arr1 [0; -1]%Z)) ["a"; "b"; "c"] [10; 20; 30]
    = Ok (["a"; "c"; "c"], [10; 30; 30]).
Proof. reflexivity. Qed.

Example reorder_out_of_range :
  reorder_frame (Some (Arr1 [0; 3]%Z)) ["a"; "b"; "c"] [10; 20; 30]
    = Raise IndexError.
Proof. reflexivity. Qed.

Example reorder_too_long :
  reorder_frame (Some (Arr1 [0; 0; 0; 0]%Z)) ["a"; "b"; "c"] [10; 20; 30]
    = Raise IndexError.
Proof. reflexivity. Qed.

(** ** C3: a cycle anchor before the header values *)

(** The loop reaches state [st]; the line under the cursor, after the
    header tests, is [line] and contains the cycle anchor; the frame block
    is entered with the loop variables [st1]. *)
Definition cycle_anchor_met py_int py_float {M} (F : Flavour M)
    (reorder_map : option ndarray) (contents : list string)
    (st : pstate M) (line : string) (st1 : pstate M) : Prop :=
  reaches py_int py_float F reorder_map contents st ∧
  header py_int py_float F contents st = Ok (line, st1) ∧
  Py.contains anchor_cycle line = true.

(** A source without atom count and without masses: a trajectory anchor
    and a cycle block. *)
Definition headerless : list string := text [
  " TRAJECTORY NUMBER IS 1";
  " THE CYCLE COUNT IS 100 TIME: 50.0";
  "";
  " Q AND P";
  "";
  "" ].

(** C3, as stated, fails: no line of [headerless] declares the atom count
    or the masses, its cycle anchor raises nothing, and a frame with empty
    arrays is stored for it. *)
Lemma C3_headerless_frame :
  Forall (λ l, Py.contains anchor_num_atoms l = false ∧
               Py.contains anchor_masses l = false) headerless ∧
  venus2g96_parse Num.int_of_string Num.float_of_string headerless None
    = Ok [[ {| G96.title := "";
               G96.timestep := (100%Z, 0.5%float);
               G96.position := [];
               G96.velocity := [];
               G96.box := [0; 0; 0]%float |} ]].
Proof. split; [repeat constructor | vm_compute; reflexivity]. Qed.

(** C3, amended.  When a cycle anchor is met with a positive atom count and
    fewer masses than atoms (none, if the mass table was never read), the
    parse ends in an exception and returns no frame at all: always in
    venus2g96, and in venus2gro provided the line of the first atom without
    a mass has more than three fields.  A missing atom count is no error by
    itself: with the count at 0 (and no reorder map), a cycle anchor whose
    cycle and time fields convert stores a frame with empty arrays in the
    last trajectory group. *)
Theorem C3_cycle_before_header py_int py_float (contents : list string)
    (reorder : option ndarray) :
  (∀ st line st1,
     cycle_anchor_met py_int py_float (g96 py_float) (minus_one <$> reorder)
       contents st line st1 →
     length (masses st1) < Z.to_nat (num_atoms st1) →
     raises (venus2g96_parse py_int py_float contents reorder)) ∧
  (∀ template_gro t st line st1,
     parse_template py_int py_float template_gro = Ok t →
     cycle_anchor_met py_int py_float (gro py_float t) (minus_one <$> reorder)
       contents st line st1 →
     length (masses st1) < Z.to_nat (num_atoms st1) →
     (∀ l, contents !! (cur_line_idx st1 + 5 + length (masses st1)) = Some l →
           3 < length (Py.split l)) →
     raises (venus2gro_parse py_int py_float contents template_gro reorder)) ∧
  (∀ M (F : Flavour M) st line st1 c_tok cur_cycle t_tok t gs g mol,
     cycle_anchor_met py_int py_float F None contents st line st1 →
     (num_atoms st1 ≤ 0)%Z →
     Py.split line !! 4 = Some c_tok → py_int c_tok = Some cur_cycle →
     Py.split line !! 6 = Some t_tok → py_float t_tok = Some t →
     traj_list st1 = gs ++ [g] →
     make_mol F (cur_traj_idx st1) cur_cycle (t * 1.0e-02)%float
       (num_atoms st1) [] [] = Ok mol →
     iteration py_int py_float F None contents st =
       Ok {| cur_line_idx := cur_line_idx st1 + 5;
             cur_traj_idx := cur_traj_idx st1;
             num_atoms := num_atoms st1;
             masses := masses st1;
             traj_list := gs ++ [g ++ [mol]] |}).
Proof.
  split; [|split].
  - intros st line st1 (Hr & Hh & Hc) Hn. unfold venus2g96_parse.
    eapply cycle_needs_masses; eauto. intros l _. apply g96_needs_mass.
  - intros template_gro t st line st1 Ht (Hr & Hh & Hc) Hn Hfields.
    unfold venus2gro_parse. rewrite Ht. simpl.
    apply bind_raises_l. eapply cycle_needs_masses; eauto.
    intros l Hl. apply gro_needs_mass. eauto.
  - intros M F st line st1 c_tok cur_cycle t_tok t gs g mol
      (_ & Hh & Hc) Hn Hc4 Hcyc Ht6 Ht Htl Hmol.
    unfold iteration. rewrite Hh. simpl.
    unfold on_cycle. rewrite Hc.
    rewrite (proj2 (item_Ok _ _ _) Hc4). simpl.
    unfold to_int. rewrite Hcyc. simpl.
    rewrite (proj2 (item_Ok _ _ _) Ht6). simpl.
    unfold to_float. rewrite Ht. simpl.
    replace (Z.to_nat (num_atoms st1)) with 0 by lia.
    unfold frame_arrays, atom_block. simpl.
    rewrite Hmol. simpl. rewrite Htl, append_last_snoc. simpl.
    do 2 f_equal. lia.
Qed.

(** An atom count, a trajectory, a cycle block, and no masses. *)
Definition massless : list string := text [
  " NUMBER OF ATOMS = 2";
  " TRAJECTORY NUMBER IS 1";
  " THE CYCLE COUNT IS 100 TIME: 50.0";
  "";
  " Q AND P";
  "";
  "";
  " 1.0 2.0 3.0 0.0 0.0 0.0";
  " 4.0 5.0 6.0 2.0 0.0 0.0" ].

Lemma C3_cycle_before_header_witness :
  raises (venus2g96_parse Num.int_of_string Num.float_of_string massless None).
Proof.
  refine (proj1 (C3_cycle_before_header Num.int_of_string Num.float_of_string
                   massless None)
            {| cur_line_idx := 2; cur_traj_idx := 1; num_atoms := 2;
               masses := []; traj_list := [[]] |}
            (" THE CYCLE COUNT IS 100 TIME: 50.0" +:+ nl)
            {| cur_line_idx := 2; cur_traj_idx := 1; num_atoms := 2;
               masses := []; traj_list := [[]] |} _ _).
  - split; [|split; vm_compute; reflexivity].
    eapply reaches_step; [eapply reaches_step; [apply reaches_init|..]|..].
    + simpl. lia.
    + vm_compute. reflexivity.
    + simpl. lia.
    + vm_compute. reflexivity.
  - simpl. lia.
Defined.

(** ** C5: the length of the mass line *)

Definition world0 {C} : world C := {| files := ∅; oplog := [] |}.

(** The scenario with three masses declared for its two atoms. *)
Definition surplus_masses : list string :=
  <[3 := " 1.0 2.0 3.0" +:+ nl]> scenario.

(** C5, as stated, fails: with three masses for two atoms the conversion
    runs to the end and writes the frame. *)
Lemma C5_surplus_masses_accepted :
  ∃ w,
    venus2g96 Num.int_of_string Num.float_of_string surplus_masses
      "traj.g96" None true world0 = (Ok ["traj_1.g96"], w) ∧
    files w !! "traj_1.g96" = Some [scenario_frame].
Proof. eexists. split; vm_compute; reflexivity. Qed.

Lemma velocity_take py_float (arr : list string) (ms : list float) (i n : nat) :
  i < n →
  g96_velocity py_float arr (take n ms) i = g96_velocity py_float arr ms i ∧
  gro_velocity py_float arr (take n ms) i = gro_velocity py_float arr ms i.
Proof.
  intros Hi. unfold g96_velocity, gro_velocity, Py.item.
  by rewrite lookup_take_lt.
Qed.

Lemma atom_block_take py_float {M} (F : Flavour M) contents ms idx n :
  (∀ arr i, i < n → atom_velocity F arr (take n ms) i = atom_velocity F arr ms i) →
  atom_block py_float F contents (take n ms) idx n
    = atom_block py_float F contents ms idx n.
Proof.
  intros HF. unfold atom_block. apply mapM_ext_in. intros i Hi.
  apply elem_of_seq in Hi. unfold parse_atom.
  destruct (Py.item contents (idx + 1 + i)) as [l|]; [simpl|done].
  destruct (mapM _ _); [simpl|done].
  rewrite HF by lia. done.
Qed.

(** C5, amended.  No test compares the number of masses with the atom
    count: the mass line is accepted whenever it is there and its fields
    convert.  With fewer masses than atoms, the next frame block ends
    venus2g96 in an exception, the file system untouched; with more, every
    frame block reads the first [num_atoms] masses only, in both programs. *)
Theorem C5_mass_line_length py_int py_float (contents : list string)
    (reorder : option ndarray) :
  (∀ M (F : Flavour M) line (st : pstate M) l ms,
     Py.contains anchor_masses line = true →
     contents !! (cur_line_idx st + 2) = Some l →
     mapM (to_float py_float) (Py.split l) = Ok ms →
     on_masses py_float contents line st =
       Ok (l, {| cur_line_idx := cur_line_idx st + 2;
                 cur_traj_idx := cur_traj_idx st;
                 num_atoms := num_atoms st;
                 masses := ms;
                 traj_list := traj_list st |})) ∧
  (∀ st line st1 out_g96 split w,
     cycle_anchor_met py_int py_float (g96 py_float) (minus_one <$> reorder)
       contents st line st1 →
     length (masses st1) < Z.to_nat (num_atoms st1) →
     ∃ e, venus2g96 py_int py_float contents out_g96 reorder split w = (Raise e, w)) ∧
  (∀ t ms idx n,
     atom_block py_float (g96 py_float) contents (take n ms) idx n
       = atom_block py_float (g96 py_float) contents ms idx n ∧
     atom_block py_float (gro py_float t) contents (take n ms) idx n
       = atom_block py_float (gro py_float t) contents ms idx n).
Proof.
  split; [|split].
  - intros M F line st l ms Hc Hl Hms. unfold on_masses. rewrite Hc.
    rewrite (proj2 (item_Ok _ _ _) Hl). simpl. by rewrite Hms.
  - intros st line st1 out_g96 split w (Hr & Hh & Hc) Hn.
    assert (raises (venus2g96_parse py_int py_float contents reorder)) as [e He].
    { unfold venus2g96_parse. eapply cycle_needs_masses; eauto.
      intros l _. apply g96_needs_mass. }
    exists e. unfold venus2g96. by rewrite He.
  - intros t ms idx n. split; apply atom_block_take; intros arr i Hi;
      by apply velocity_take.
Qed.

Lemma C5_mass_line_length_witness :
  on_masses Num.float_of_string surplus_masses (" MASSES OF ATOMS" +:+ nl)
    {| cur_line_idx := 1; cur_traj_idx := 0; num_atoms := 2; masses := [];
       traj_list := @nil (list G96.G96Mol) |}
  = Ok (" 1.0 2.0 3.0" +:+ nl,
        {| cur_line_idx := 1 + 2; cur_traj_idx := 0; num_atoms := 2;
           masses := [1; 2; 3]%float; traj_list := [] |}).
Proof.
  refine (proj1 (C5_mass_line_length Num.int_of_string Num.float_of_string
                   surplus_masses None) _ (g96 Num.float_of_string) _
            {| cur_line_idx := 1; cur_traj_idx := 0; num_atoms := 2; masses := [];
               traj_list := [] |} _ _ _ _ _).
  - reflexivity.
  - reflexivity.
  - vm_compute. reflexivity.
Defined.

(** ** C8: exceptions and the file system *)

(** The scenario with the third coordinate of its second atom missing, and
    no momenta: the line converts, and the frame cannot be formatted. *)
Definition short_atom_line : list string :=
  <[11 := " 4.0 5.0" +:+ nl]> scenario.

(** An earlier output, about to be replaced. *)
Definition earlier_output : world G96.G96Mol :=
  {| files := {[ "traj_1.g96" := [scenario_frame] ]}; oplog := [] |}.

(** C8, as stated, fails: on [short_atom_line] the run ends in an
    IndexError raised while the frame is formatted, after the earlier
    output was renamed and the output file opened (and left empty). *)
Lemma C8_exception_after_rotation :
  ∃ w,
    venus2g96 Num.int_of_string Num.float_of_string short_atom_line
      "traj.g96" None true earlier_output = (Raise IndexError, w) ∧
    oplog w = [Rename "traj_1.g96" "#traj_1.1.g96#"; OpenW "traj_1.g96"] ∧
    files w !! "traj_1.g96" = Some [].
Proof. eexists. repeat split; vm_compute; reflexivity. Qed.

(** What holds of every input is stated further down, after the facts
    about the writer it needs (C8, continued). *)

(** ** C10: where frames are appended *)

Lemma header_traj py_int py_float {M} (F : Flavour M) contents
    (st : pstate M) line st1 :
  header py_int py_float F contents st = Ok (line, st1) →
  traj_list st1 = traj_list st ∨
  (traj_list st1 = traj_list st ++ [[]] ∧
   (Z.of_nat (length (traj_list st)) < cur_traj_idx st1)%Z).
Proof.
  unfold header. intros H. inv_ok H. simplify_eq.
  apply on_num_atoms_fields in Ha0 as (_ & _ & Htl0 & _).
  apply on_masses_fields in Ha1 as (_ & _ & Htl1 & _).
  rewrite <- Htl0, <- Htl1. clear -Ha2.
  unfold on_traj in Ha2. inv_ok Ha2; subst; simpl; [|by left].
  case_match; [right|by left]. split; [done|]. lia.
Qed.




(** Trajectories 1, 2, then 1 again, one cycle block after each anchor
    (no atoms declared: the blocks are empty). *)
Definition cycle_block (cycle : string) : list string :=
  text [ " THE CYCLE COUNT IS " +:+ cycle +:+ " TIME: 50.0"; ""; ""; ""; "" ].

Definition redeclared : list string :=
  text [" TRAJECTORY NUMBER IS 1"] ++ cycle_block "10" ++
  text [" TRAJECTORY NUMBER IS 2"] ++ cycle_block "20" ++
  text [" TRAJECTORY NUMBER IS 1"] ++ cycle_block "30".

Definition empty_frame (cycle : Z) : G96.G96Mol := {|
  G96.title := "";
  G96.timestep := (cycle, 0.5%float);
  G96.position := [];
  G96.velocity := [];
  G96.box := [0; 0; 0]%float;
|}.

Example redeclared_parse :
  venus2g96_parse Num.int_of_string Num.float_of_string redeclared None
    = Ok [[empty_frame 10]; [empty_frame 20; empty_frame 30]].
Proof. vm_compute. reflexivity. Qed.




(** ** C7: split and no-split *)

(** The operations performed between two states of the world. *)
Definition new_ops {C} (w w' : world C) : list (fs_op C) :=
  drop (length (oplog w)) (oplog w').

(** The records written, in order. *)
Definition written {C} (ops : list (fs_op C)) : list C :=
  omap (λ o, match o with WriteRec _ d => Some d | _ => None end) ops.

(** The files opened for writing, in order, each with the records written
    until the next file is opened.  The first component collects what is
    written before any file is opened. *)
Fixpoint sessions_go {C} (ops : list (fs_op C)) : list C * list (string * list C) :=
  match ops with
  | [] => ([], [])
  | Rename _ _ :: ops' => sessions_go ops'
  | OpenW p :: ops' => let '(recs, ss) := sessions_go ops' in ([], (p, recs) :: ss)
  | WriteRec _ d :: ops' => let '(recs, ss) := sessions_go ops' in (d :: recs, ss)
  end.
Definition sessions {C} (ops : list (fs_op C)) : list (string * list C) :=
  (sessions_go ops).2.

Section WriterFacts.
Context {M : Type}.
Variable F : Flavour M.

(** The frames of [traj] up to the first one that cannot be formatted. *)
Fixpoint good_prefix (traj : list M) : list M :=
  match traj with
  | [] => []
  | frame :: rest =>
      match str_mol F frame with
      | Ok _ => frame :: good_prefix rest
      | Raise _ => []
      end
  end.

Definition all_good (traj : list M) : bool :=
  forallb (λ frame, is_ok (str_mol F frame)) traj.

Lemma good_prefix_all traj : all_good traj = true → good_prefix traj = traj.
Proof.
  induction traj as [|frame rest IH]; [done|]. simpl.
  destruct (str_mol F frame); simpl; [|done].
  intros H. by rewrite IH.
Qed.

Lemma good_prefix_app traj1 traj2 :
  good_prefix (traj1 ++ traj2) =
    if all_good traj1 then traj1 ++ good_prefix traj2 else good_prefix traj1.
Proof.
  induction traj1 as [|frame rest IH]; simpl; [done|].
  destruct (str_mol F frame); simpl; [|done].
  rewrite IH. by destruct (all_good rest).
Qed.

Lemma all_good_app traj1 traj2 :
  all_good (traj1 ++ traj2) = all_good traj1 && all_good traj2.
Proof. apply forallb_app. Qed.

Lemma backup_log file (w : world M) :
  ∃ ops, oplog (_auto_backup_file F file w) = oplog w ++ ops ∧
         sessions_go ops = ([], []).
Proof.
  unfold _auto_backup_file. destruct (negb _).
  - exists []. by rewrite app_nil_r.
  - eexists [_]. simpl. split; done.
Qed.

Lemma write_frames_spec name traj : ∀ (w : world M),
  oplog (write_frames F name traj w).2
    = oplog w ++ (WriteRec name <$> good_prefix traj) ∧
  (all_good traj = true → (write_frames F name traj w).1 = Ok ()) ∧
  (all_good traj = false → raises (write_frames F name traj w).1).
Proof.
  induction traj as [|frame rest IH]; intros w; simpl.
  - by rewrite app_nil_r.
  - destruct (str_mol F frame) as [[]|e]; simpl.
    + destruct (IH (write name frame w)) as (Hlog & Hok & Hbad).
      rewrite Hlog. simpl. rewrite <- app_assoc. done.
    + rewrite app_nil_r. split; [done|]. split; [done|].
      intros _. by exists e.
Qed.

Lemma sessions_go_writes name (recs : list M) ops :
  sessions_go ((WriteRec name <$> recs) ++ ops)
    = (recs ++ (sessions_go ops).1, (sessions_go ops).2).
Proof.
  induction recs as [|d recs IH].
  - simpl. by destruct (sessions_go ops).
  - change (sessions_go ((WriteRec name <$> d :: recs) ++ ops))
      with (let '(r, ss) := sessions_go ((WriteRec name <$> recs) ++ ops)
            in (d :: r, ss)).
    by rewrite IH.
Qed.

Lemma sessions_go_skip (ops1 ops2 : list (fs_op M)) :
  sessions_go ops1 = ([], []) → sessions_go (ops1 ++ ops2) = sessions_go ops2.
Proof.
  induction ops1 as [|[src dst|p|p d] ops1 IH]; simpl; try done.
  - by destruct (sessions_go ops1).
  - by destruct (sessions_go ops1).
Qed.

Lemma written_app (ops1 ops2 : list (fs_op M)) :
  written (ops1 ++ ops2) = written ops1 ++ written ops2.
Proof. apply omap_app. Qed.

Lemma written_writes name (recs : list M) :
  written (WriteRec name <$> recs) = recs.
Proof.
  induction recs as [|d recs IH]; [done|].
  change (written (WriteRec name <$> d :: recs))
    with (d :: written (WriteRec name <$> recs)).
  by rewrite IH.
Qed.

Lemma written_open p (ops : list (fs_op M)) :
  written (OpenW p :: ops) = written ops.
Proof. reflexivity. Qed.

Lemma written_skip (ops : list (fs_op M)) :
  sessions_go ops = ([], []) → written ops = [].
Proof.
  induction ops as [|[src dst|p|p d] ops IH]; simpl; try done.
  - by destruct (sessions_go ops).
  - by destruct (sessions_go ops).
Qed.

(** What was written is what the sessions hold, in order. *)
Lemma written_sessions (ops : list (fs_op M)) :
  written ops = (sessions_go ops).1 ++ concat (sessions_go ops).2.*2.
Proof.
  induction ops as [|[src dst|p|p d] ops IH].
  - done.
  - exact IH.
  - rewrite written_open, IH. cbn [sessions_go].
    by destruct (sessions_go ops).
  - change (written (WriteRec p d :: ops)) with (d :: written ops).
    rewrite IH. cbn [sessions_go]. by destruct (sessions_go ops).
Qed.

(** The loop over the trajectories: what it logs. *)
Lemma write_trajs_spec out trajs : ∀ traj_idx names (w : world M),
  ∃ ops,
    oplog (write_trajs F out traj_idx trajs names w).2 = oplog w ++ ops ∧
    written ops = good_prefix (concat trajs) ∧
    (sessions_go ops).1 = [] ∧
    (trajs ≠ [] → ∃ recs ss, sessions ops = (traj_name F out traj_idx, recs) :: ss) ∧
    (all_good (concat trajs) = true →
       sessions ops = imap (λ i traj, (traj_name F out (traj_idx + i), traj)) trajs ∧
       (write_trajs F out traj_idx trajs names w).1
         = Ok (names ++ imap (λ i _, traj_name F out (traj_idx + i)) trajs)).
Proof.
  induction trajs as [|traj rest IH]; intros traj_idx names w.
  - exists []. simpl. rewrite !app_nil_r. repeat split; try done.
  - cbn [write_trajs concat].
    set (name := traj_name F out traj_idx).
    destruct (backup_log name w) as (ops1 & Hlog1 & Hs1).
    set (w2 := open_w name (_auto_backup_file F name w)).
    assert (Hlog2 : oplog w2 = oplog w ++ ops1 ++ [OpenW name]).
    { unfold w2. cbn [open_w oplog]. by rewrite Hlog1, <- app_assoc. }
    destruct (write_frames_spec name traj w2) as (Hlog3 & Hok & Hbad).
    destruct (write_frames F name traj w2) as [r w3] eqn:Hwf.
    cbn [fst snd] in Hlog3, Hok, Hbad.
    destruct r as [[]|e].
    + (* the trajectory was written in full *)
      assert (Hgoodb : all_good traj = true).
      { destruct (all_good traj); [done|].
        destruct (Hbad eq_refl) as [e He]. discriminate He. }
      pose proof (good_prefix_all _ Hgoodb) as Hgood.
      destruct (IH (S traj_idx) (names ++ [name]) w3)
        as (ops & Hlog & Hw & Hpre & _ & Hall).
      exists (ops1 ++ [OpenW name] ++ (WriteRec name <$> traj) ++ ops).
      rewrite Hlog, Hlog3, Hlog2, Hgood, <- !app_assoc.
      split; [done|].
      unfold sessions.
      rewrite (sessions_go_skip ops1) by done.
      cbn [app sessions_go].
      rewrite sessions_go_writes, Hpre, app_nil_r. cbn [fst snd].
      split.
      { rewrite written_app, (written_skip ops1) by done.
        cbn [app]. rewrite written_open.
        rewrite written_app, written_writes, Hw, good_prefix_app.
        by rewrite Hgoodb. }
      split; [done|]. split; [eauto|].
      intros Hgoodall. rewrite all_good_app, Hgoodb in Hgoodall.
      destruct (Hall Hgoodall) as [Hss Hres]. unfold sessions in Hss.
      rewrite Hss, Hres, !imap_cons, Nat.add_0_r, <- app_assoc.
      fold name. cbn [app].
      split; [f_equal|do 3 f_equal].
      all: apply imap_ext; intros; simpl; repeat f_equal; lia.
    + (* a frame could not be formatted *)
      assert (Hne : all_good traj = false).
      { destruct (all_good traj); [|done]. specialize (Hok eq_refl). discriminate Hok. }
      exists (ops1 ++ [OpenW name] ++ (WriteRec name <$> good_prefix traj)).
      cbn [fst snd]. rewrite Hlog3, Hlog2, <- !app_assoc. split; [done|].
      unfold sessions.
      rewrite (sessions_go_skip ops1) by done.
      cbn [app sessions_go].
      pose proof (sessions_go_writes name (good_prefix traj) []) as Hsw.
      rewrite app_nil_r in Hsw. rewrite Hsw. cbn [fst snd sessions_go app].
      split.
      { rewrite written_app, (written_skip ops1) by done.
        cbn [app]. rewrite written_open.
        rewrite written_writes, good_prefix_app. by rewrite Hne. }
      split; [done|]. split; [eauto|].
      intros Hgoodall. rewrite all_good_app, Hne in Hgoodall. done.
Qed.

Lemma new_ops_app (w w' : world M) ops :
  oplog w' = oplog w ++ ops → new_ops w w' = ops.
Proof. intros H. unfold new_ops. by rewrite H, drop_app_length. Qed.
End WriterFacts.

Section SplitFacts.
Context {M : Type}.
Variable F : Flavour M.

(** A single trajectory: one file, holding what could be formatted. *)
Lemma write_single_spec out traj names (w : world M) :
  ∃ ops,
    oplog (write_trajs F out 0 [traj] names w).2 = oplog w ++ ops ∧
    sessions ops = [(traj_name F out 0, good_prefix F traj)].
Proof.
  cbn [write_trajs].
  set (name := traj_name F out 0).
  destruct (backup_log F name w) as (ops1 & Hlog1 & Hs1).
  set (w2 := open_w name (_auto_backup_file F name w)).
  assert (Hlog2 : oplog w2 = oplog w ++ ops1 ++ [OpenW name]).
  { unfold w2. cbn [open_w oplog]. by rewrite Hlog1, <- app_assoc. }
  destruct (write_frames_spec F name traj w2) as (Hlog3 & _ & _).
  exists (ops1 ++ [OpenW name] ++ (WriteRec name <$> good_prefix F traj)).
  split.
  - destruct (write_frames F name traj w2) as [[[]|e] w3];
      cbn [fst snd] in *; by rewrite Hlog3, Hlog2, <- !app_assoc.
  - unfold sessions. rewrite (sessions_go_skip ops1) by done.
    cbn [app sessions_go].
    pose proof (sessions_go_writes name (good_prefix F traj) []) as Hsw.
    rewrite app_nil_r in Hsw. rewrite Hsw. cbn [sessions_go fst snd].
    by rewrite app_nil_r.
Qed.

Lemma imap_snd (name : nat → string) (trajs : list (list M)) :
  (imap (λ i traj, (name i, traj)) trajs).*2 = trajs.
Proof.
  apply list_eq. intros i.
  rewrite list_lookup_fmap, list_lookup_imap. by destruct (trajs !! i).
Qed.

Lemma sessions_split out trajs (w : world M) :
  concat (sessions (new_ops w (write_phase F out true trajs w).2)).*2
    = good_prefix F (concat trajs).
Proof.
  unfold write_phase. cbn [regroup].
  destruct (write_trajs_spec F out trajs 0 [] w) as (ops & Hlog & Hw & Hpre & _).
  rewrite (new_ops_app _ _ _ Hlog), <- Hw, (written_sessions ops), Hpre.
  done.
Qed.

Lemma written_split out trajs (w : world M) :
  written (new_ops w (write_phase F out true trajs w).2)
    = good_prefix F (concat trajs).
Proof.
  unfold write_phase. cbn [regroup].
  destruct (write_trajs_spec F out trajs 0 [] w) as (ops & Hlog & Hw & _).
  by rewrite (new_ops_app _ _ _ Hlog).
Qed.

Lemma sessions_whole out trajs (w : world M) :
  trajs ≠ [] →
  sessions (new_ops w (write_phase F out false trajs w).2)
    = [(traj_name F out 0, good_prefix F (concat trajs))].
Proof.
  intros Hne. unfold write_phase, regroup.
  destruct trajs as [|traj rest]; [done|].
  destruct (write_single_spec out (concat (traj :: rest)) [] w)
    as (ops & Hlog & Hs).
  by rewrite (new_ops_app _ _ _ Hlog).
Qed.

Lemma written_whole out trajs (w : world M) :
  written (new_ops w (write_phase F out false trajs w).2)
    = good_prefix F (concat trajs).
Proof.
  unfold write_phase, regroup. destruct trajs as [|traj rest].
  - cbn [snd]. unfold new_ops. by rewrite drop_all.
  - destruct (write_trajs_spec F out [concat (traj :: rest)] 0 [] w)
      as (ops & Hlog & Hw & _).
    rewrite (new_ops_app _ _ _ Hlog), Hw.
    cbn [concat]. by rewrite app_nil_r.
Qed.
End SplitFacts.

(** A source that declares atoms and masses and no trajectory. *)
Definition no_trajectory : list string := take 4 scenario.

(** C7, as stated, fails: [no_trajectory] parses to the empty trajectory
    set; with split mode the run returns normally (no file), with split
    mode off it ends in a ValueError instead of writing the single file. *)
Lemma C7_no_split_empty_set :
  venus2g96_parse Num.int_of_string Num.float_of_string no_trajectory None = Ok [] ∧
  venus2g96 Num.int_of_string Num.float_of_string no_trajectory "traj.g96"
    None true world0 = (Ok [], world0) ∧
  venus2g96 Num.int_of_string Num.float_of_string no_trajectory "traj.g96"
    None false world0 = (Raise ValueError, world0).
Proof. repeat split; vm_compute; reflexivity. Qed.

(** C7, amended.  For every trajectory set the frames written are the same
    sequence whether split mode is on or off (so their number is the same).
    When the set is not empty, split mode off writes one file, which holds
    the concatenation, in list order, of what split mode writes to its
    files.  When every frame can be formatted, split mode writes one file
    per trajectory, holding that trajectory's frames, and all frames of the
    set are written. *)
Theorem C7_split_conserves_frames {M} (F : Flavour M) (out : string)
    (trajs : list (list M)) (w : world M) :
  let split_ops := new_ops w (write_phase F out true trajs w).2 in
  let whole_ops := new_ops w (write_phase F out false trajs w).2 in
  written split_ops = written whole_ops ∧
  length (written split_ops) = length (written whole_ops) ∧
  (trajs ≠ [] →
     sessions whole_ops = [(traj_name F out 0, concat (sessions split_ops).*2)]) ∧
  (all_good F (concat trajs) = true →
     sessions split_ops = imap (λ i traj, (traj_name F out i, traj)) trajs ∧
     written split_ops = concat trajs).
Proof.
  intros split_ops whole_ops. unfold split_ops, whole_ops.
  rewrite written_split, written_whole, sessions_split.
  split; [done|]. split; [done|]. split.
  - intros Hne. by apply sessions_whole.
  - intros Hgood. rewrite (good_prefix_all F _ Hgood). split; [|done].
    unfold write_phase. cbn [regroup].
    destruct (write_trajs_spec F out trajs 0 [] w) as (ops & Hlog & _ & _ & _ & Hall).
    rewrite (new_ops_app _ _ _ Hlog). by destruct (Hall Hgood) as [-> _].
Qed.

(** Two trajectories of the scenario's frame, two frames and one. *)
Lemma C7_split_conserves_frames_witness :
  sessions (new_ops world0
    (write_phase (g96 Num.float_of_string) "traj.g96" false
       [[scenario_frame; scenario_frame]; [scenario_frame]] world0).2)
  = [("traj_1.g96",
      concat (sessions (new_ops world0
        (write_phase (g96 Num.float_of_string) "traj.g96" true
           [[scenario_frame; scenario_frame]; [scenario_frame]] world0).2)).*2)].
Proof.
  refine (proj1 (proj2 (proj2 (C7_split_conserves_frames
            (g96 Num.float_of_string) "traj.g96"
            [[scenario_frame; scenario_frame]; [scenario_frame]] world0))) _).
  discriminate.
Defined.

Example split_sessions :
  sessions (oplog
    (write_phase (g96 Num.float_of_string) "traj.g96" true
       [[scenario_frame; scenario_frame]; [scenario_frame]] world0).2)
  = [("traj_1.g96", [scenario_frame; scenario_frame]);
     ("traj_2.g96", [scenario_frame])].
Proof. vm_compute. reflexivity. Qed.

Example whole_sessions :
  sessions (oplog
    (write_phase (g96 Num.float_of_string) "traj.g96" false
       [[scenario_frame; scenario_frame]; [scenario_frame]] world0).2)
  = [("traj_1.g96", [scenario_frame; scenario_frame; scenario_frame])].
Proof. vm_compute. reflexivity. Qed.

(** ** C9: the names of the files in split mode *)

(** A template for the two atoms of the scenario. *)
Definition template2 : list string := text [
  "two atoms";
  "    2";
  "    1MOL     C1    1";
  "    1MOL     C2    2";
  "   1.00000   1.00000   1.00000" ].

Lemma traj_name_g96 py_float (out : string) (traj_idx : nat) :
  traj_name (g96 py_float) out traj_idx
    = Py.replace ".g96" ("_" +:+ Py.str_int (Z.of_nat traj_idx + 1) +:+ ".g96") out.
Proof. reflexivity. Qed.

Lemma traj_name_gro py_float (t : Gro.Template) (out : string) (traj_idx : nat) :
  traj_name (gro py_float t) out traj_idx
    = Py.replace ".gro" ("_" +:+ Py.str_int (Z.of_nat traj_idx) +:+ ".gro") out.
Proof. reflexivity. Qed.

(** C9 on the code: for the scenario, whose only trajectory is declared
    with index 1, venus2g96 writes [traj_1.g96], and venus2gro writes
    [traj_0.gro], a file whose frame is titled with trajectory 1. *)
Theorem C9_gro_suffix_from_zero :
  (venus2g96 Num.int_of_string Num.float_of_string scenario
     "traj.g96" None true world0).1 = Ok ["traj_1.g96"] ∧
  ∃ w frame,
    venus2gro Num.int_of_string Num.float_of_string scenario template2
      "traj.gro" None true world0 = (Ok ["traj_0.gro"], w) ∧
    files w !! "traj_0.gro" = Some [frame] ∧
    Gro.title frame = ("two atoms", 1%Z, 0.5%float).
Proof.
  split; [vm_compute; reflexivity|].
  eexists _, _. repeat split; vm_compute; reflexivity.
Qed.

(** ** C2: backup rotation *)

(** The scenario with another cycle number, and the frame it yields: the
    output of successive runs can be told apart. *)
Definition run_source (cycle : string) : list string :=
  <[5 := " THE CYCLE COUNT IS " +:+ cycle +:+ " TIME: 50.0" +:+ nl]> scenario.

Definition run_frame (cycle : Z) : G96.G96Mol := {|
  G96.title := G96.title scenario_frame;
  G96.timestep := (cycle, 0.5%float);
  G96.position := G96.position scenario_frame;
  G96.velocity := G96.velocity scenario_frame;
  G96.box := G96.box scenario_frame;
|}.

(** One run of venus2g96 (split mode, no reorder map) on [run_source]. *)
Definition run (out_g96 cycle : string) (w : world G96.G96Mol) : world G96.G96Mol :=
  (venus2g96 Num.int_of_string Num.float_of_string (run_source cycle)
     out_g96 None true w).2.

Definition three_runs (out_g96 : string) : world G96.G96Mol :=
  run out_g96 "3" (run out_g96 "2" (run out_g96 "1" world0)).

(** In the working directory the rotation does what C2 says: two backups
    with increasing numbers, nothing lost. *)
Example three_runs_here :
  files (three_runs "traj.g96") =
    list_to_map [ ("traj_1.g96", [run_frame 3]);
                  ("#traj_1.1.g96#", [run_frame 1]);
                  ("#traj_1.2.g96#", [run_frame 2]) ].
Proof. vm_compute. reflexivity. Qed.

(** C2 on the code: with the output in a directory [out], the backups are
    counted in [out] and created in the working directory.  Both renames
    go to the same name [#traj_1.1.g96#]; after three runs it holds the
    output of the second, and the output of the first is in no file. *)
Theorem C2_backup_overwritten :
  oplog (three_runs "out/traj.g96") =
    [ OpenW "out/traj_1.g96";
      WriteRec "out/traj_1.g96" (run_frame 1);
      Rename "out/traj_1.g96" "#traj_1.1.g96#";
      OpenW "out/traj_1.g96";
      WriteRec "out/traj_1.g96" (run_frame 2);
      Rename "out/traj_1.g96" "#traj_1.1.g96#";
      OpenW "out/traj_1.g96";
      WriteRec "out/traj_1.g96" (run_frame 3) ] ∧
  files (three_runs "out/traj.g96") =
    list_to_map [ ("out/traj_1.g96", [run_frame 3]);
                  ("#traj_1.1.g96#", [run_frame 2]) ] ∧
  Os.dirname "#traj_1.1.g96#" ≠ Os.dirname "out/traj_1.g96".
Proof.
  split; [vm_compute; reflexivity|].
  split; [vm_compute; reflexivity|].
  vm_compute. discriminate.
Qed.


(** ** C8, continued: the two phases of a run *)

Section Phases.
Context {M : Type}.
Variable F : Flavour M.
Implicit Types (w : world M) (traj : list M) (trajs : list (list M)).

(** The exception raised by the first frame that cannot be formatted, if
    there is one: what [str(frame)] raises inside the loop over the frames. *)
Fixpoint first_bad (traj : list M) : option exn :=
  match traj with
  | [] => None
  | frame :: rest =>
      match str_mol F frame with
      | Raise e => Some e
      | Ok _ => first_bad rest
      end
  end.

(** What [_auto_backup_file] does to a name: nothing when no such file
    exists, one rename of it otherwise. *)
Definition rotated (w : world M) (name : string) (ops : list (fs_op M)) : Prop :=
  (exists_ w name = false ∧ ops = []) ∨
  (exists_ w name = true ∧ ∃ backup, ops = [Rename name backup]).

(** The two phases of a run whose parsing phase gave [parsed] and whose
    outcome is [outcome], started in the world [w]:
    - an exception of the parsing phase is the outcome, and the world is
      as it was;
    - if any operation was performed on the file system, the parsing phase
      had returned, with at least one trajectory;
    - if the parsing phase returned at least one trajectory, the first
      operations are the rotation of the first output name and its
      opening; the records written are the frames up to the first one that
      cannot be formatted; and the run raises exactly when there is such a
      frame, with the exception its formatting raises. *)
Definition two_phases (parsed : result (list (list M))) (out : string)
    (w : world M) (outcome : result (list string) * world M) : Prop :=
  let ops := new_ops w outcome.2 in
  (∀ e, parsed = Raise e → outcome = (Raise e, w)) ∧
  (ops ≠ [] → ∃ traj_list, parsed = Ok traj_list ∧ traj_list ≠ []) ∧
  (∀ traj_list, parsed = Ok traj_list → traj_list ≠ [] →
     (∃ rot more,
        ops = rot ++ OpenW (traj_name F out 0) :: more ∧
        rotated w (traj_name F out 0) rot) ∧
     written ops = good_prefix F (concat traj_list) ∧
     (∀ e, outcome.1 = Raise e ↔ first_bad (concat traj_list) = Some e)).

Lemma first_bad_app traj1 traj2 :
  first_bad (traj1 ++ traj2) =
    match first_bad traj1 with Some e => Some e | None => first_bad traj2 end.
Proof.
  induction traj1 as [|frame rest IH]; simpl; [done|].
  by destruct (str_mol F frame).
Qed.

Lemma first_bad_None traj : first_bad traj = None ↔ all_good F traj = true.
Proof.
  induction traj as [|frame rest IH]; simpl; [done|].
  destruct (str_mol F frame); simpl; [done|]. split; discriminate.
Qed.

(** The frame that raises follows the frames that were written. *)
Lemma first_bad_Some traj e :
  first_bad traj = Some e →
  ∃ frame after,
    traj = good_prefix F traj ++ frame :: after ∧ str_mol F frame = Raise e.
Proof.
  induction traj as [|frame rest IH]; simpl; [done|].
  destruct (str_mol F frame) as [u|e'] eqn:Hs.
  - intros H. destruct (IH H) as (frame' & after & Heq & Hbad).
    exists frame', after. split; [|done]. simpl. by f_equal.
  - intros [= ->]. by exists frame, rest.
Qed.

Lemma write_frames_result name traj : ∀ w e,
  (write_frames F name traj w).1 = Raise e ↔ first_bad traj = Some e.
Proof.
  induction traj as [|frame rest IH]; intros w e; simpl.
  - split; discriminate.
  - destruct (str_mol F frame); simpl; [apply IH|].
    split; intros [= ->]; done.
Qed.

Lemma write_trajs_result out trajs : ∀ traj_idx names w e,
  (write_trajs F out traj_idx trajs names w).1 = Raise e
  ↔ first_bad (concat trajs) = Some e.
Proof.
  induction trajs as [|traj rest IH]; intros traj_idx names w e.
  - simpl. split; discriminate.
  - cbn [write_trajs concat]. rewrite first_bad_app.
    set (name := traj_name F out traj_idx).
    set (w2 := open_w name (_auto_backup_file F name w)).
    pose proof (write_frames_result name traj w2) as Hres.
    destruct (write_frames F name traj w2) as [[[]|e'] w3]; cbn [fst snd] in *.
    + destruct (first_bad traj) as [e0|] eqn:Hb.
      { pose proof (proj2 (Hres e0) eq_refl) as Hx. discriminate Hx. }
      apply IH.
    + rewrite (proj1 (Hres e') eq_refl). split; intros [= ->]; done.
Qed.

Lemma backup_rotated file w :
  ∃ rot, oplog (_auto_backup_file F file w) = oplog w ++ rot ∧ rotated w file rot.
Proof.
  unfold _auto_backup_file, rotated. destruct (exists_ w file); simpl.
  - eexists [_]. split; [done|]. right. eauto.
  - exists []. rewrite app_nil_r. split; [done|]. by left.
Qed.

(** The loop over the trajectories starts with the rotation and the
    opening of the first name. *)
Lemma write_trajs_head out traj rest traj_idx names w :
  ∃ rot more,
    oplog (write_trajs F out traj_idx (traj :: rest) names w).2
      = oplog w ++ rot ++ OpenW (traj_name F out traj_idx) :: more ∧
    rotated w (traj_name F out traj_idx) rot.
Proof.
  cbn [write_trajs]. set (name := traj_name F out traj_idx).
  destruct (backup_rotated name w) as (rot & Hlog1 & Hrot).
  set (w2 := open_w name (_auto_backup_file F name w)).
  assert (Hlog2 : oplog w2 = oplog w ++ rot ++ [OpenW name]).
  { unfold w2. cbn [open_w oplog]. by rewrite Hlog1, <- app_assoc. }
  destruct (write_frames_spec F name traj w2) as (Hlog3 & _ & _).
  destruct (write_frames F name traj w2) as [[[]|e] w3]; cbn [fst snd] in *.
  - destruct (write_trajs_spec F out rest (S traj_idx) (names ++ [name]) w3)
      as (ops & Hlog & _).
    exists rot, ((WriteRec name <$> good_prefix F traj) ++ ops). split; [|done].
    rewrite Hlog, Hlog3, Hlog2, <- !app_assoc. done.
  - exists rot, (WriteRec name <$> good_prefix F traj). split; [|done].
    rewrite Hlog3, Hlog2, <- !app_assoc. done.
Qed.

(** A run is its parsing phase followed, if that returned, by the writing
    phase on its result; such a run has the two phases. *)
Lemma two_phases_run (parsed : result (list (list M))) out split w :
  two_phases parsed out w
    match parsed with
    | Raise e => (Raise e, w)
    | Ok traj_list => write_phase F out split traj_list w
    end.
Proof.
  assert (Hnone : new_ops w w = []).
  { unfold new_ops. by rewrite drop_all. }
  unfold two_phases. destruct parsed as [tl|e0]; cbn [fst snd].
  2:{ split; [by intros e [= ->]|]. split; [by rewrite Hnone|]. discriminate. }
  split; [discriminate|]. split.
  - intros Hops. exists tl. split; [done|]. intros ->. apply Hops.
    unfold write_phase, regroup. by destruct split.
  - intros tl' [= <-] Hne. destruct tl as [|traj0 rest]; [done|]. clear Hne.
    destruct split.
    + split; [|split].
      * unfold write_phase. cbn [regroup].
        destruct (write_trajs_head out traj0 rest 0 [] w) as (rot & more & Hlog & Hrot).
        exists rot, more. split; [|done]. by apply new_ops_app.
      * apply written_split.
      * intros e. unfold write_phase. cbn [regroup]. apply write_trajs_result.
    + split; [|split].
      * unfold write_phase. cbn [regroup].
        destruct (write_trajs_head out (concat (traj0 :: rest)) [] 0 [] w)
          as (rot & more & Hlog & Hrot).
        exists rot, more. split; [|done]. by apply new_ops_app.
      * apply written_whole.
      * intros e. unfold write_phase. cbn [regroup].
        rewrite write_trajs_result. cbn [concat]. by rewrite app_nil_r.
Qed.
End Phases.

Section LoopExceptions.
Variable py_int : string → option Z.
Variable py_float : string → option float.
Context {M : Type}.
Variable F : Flavour M.
Variable reorder_map : option ndarray.
Variable contents : list string.

(** The exception of a turn of the loop is the exception of the parse. *)
Lemma parse_raises_exn (st : pstate M) (e : exn) :
  reaches py_int py_float F reorder_map contents st →
  cur_line_idx st < length contents →
  iteration py_int py_float F reorder_map contents st = Raise e →
  parse py_int py_float F reorder_map contents = Raise e.
Proof.
  intros Hr Hlt He.
  rewrite parse_while, (reaches_while _ _ _ _ _ st Hr).
  rewrite while_unfold, decide_True, He by done. done.
Qed.
End LoopExceptions.

(** Formatting a frame of venus2g96 reads three components of every row. *)
Lemma g96_str_Ok py_float (mol : G96.G96Mol) :
  str_mol (g96 py_float) mol = Ok ()
  ↔ Forall (λ row, 3 ≤ length row) (G96.rows mol).
Proof.
  cbn [str_mol g96]. generalize (G96.rows mol). intros rows.
  induction rows as [|row rows IH].
  - split; [constructor|done].
  - rewrite mapM_cons, Forall_cons.
    destruct (three_fields row) as [[]|e] eqn:Hrow; simpl.
    + assert (3 ≤ length row) as Hlen.
      { unfold three_fields in Hrow.
        by destruct (Nat.leb_spec 3 (length row)). }
      destruct (mapM three_fields rows) as [us|e]; simpl in *.
      * split; [|done]. intros _. split; [done|]. by apply IH.
      * split; [done|]. intros [_ H]. by apply IH in H.
    + split; [done|]. intros [Hlen _]. unfold three_fields in Hrow.
      destruct (Nat.leb_spec 3 (length row)); [done|lia].
Qed.

(** C8, amended.  In both programs a run has the two phases [two_phases]:
    an exception of the parsing phase (in venus2gro also of the template
    reader) is the outcome of the run and leaves the file system as it was;
    in particular an exception raised by any turn of the scanning loop is;
    whenever an operation is performed on the file system the parsing phase
    has returned.  An exception of the writing phase is raised by the first
    frame that cannot be formatted (in venus2g96: a frame with a row of
    fewer than three components), after the first output name was rotated
    and opened and the frames before it were written; and every such frame
    makes the run raise. *)
Theorem C8_parse_before_write py_int py_float (venus_out : list string)
    (reorder : option ndarray) (split : bool) :
  (∀ out_g96 w,
     let outcome := venus2g96 py_int py_float venus_out out_g96 reorder split w in
     two_phases (g96 py_float)
       (venus2g96_parse py_int py_float venus_out reorder) out_g96 w outcome ∧
     ∀ st e,
       reaches py_int py_float (g96 py_float) (minus_one <$> reorder) venus_out st →
       cur_line_idx st < length venus_out →
       iteration py_int py_float (g96 py_float) (minus_one <$> reorder)
         venus_out st = Raise e →
       outcome = (Raise e, w)) ∧
  (∀ template_gro out_gro w,
     let outcome :=
       venus2gro py_int py_float venus_out template_gro out_gro reorder split w in
     (∀ e, parse_template py_int py_float template_gro = Raise e →
           outcome = (Raise e, w)) ∧
     ∀ t, parse_template py_int py_float template_gro = Ok t →
       two_phases (gro py_float t)
         (parse py_int py_float (gro py_float t) (minus_one <$> reorder) venus_out)
         out_gro w outcome ∧
       ∀ st e,
         reaches py_int py_float (gro py_float t) (minus_one <$> reorder)
           venus_out st →
         cur_line_idx st < length venus_out →
         iteration py_int py_float (gro py_float t) (minus_one <$> reorder)
           venus_out st = Raise e →
         outcome = (Raise e, w)) ∧
  (∀ mol, str_mol (g96 py_float) mol = Ok ()
          ↔ Forall (λ row, 3 ≤ length row) (G96.rows mol)).
Proof.
  split; [|split].
  - intros out_g96 w outcome.
    pose proof (two_phases_run (g96 py_float)
                  (venus2g96_parse py_int py_float venus_out reorder)
                  out_g96 split w) as Hrun.
    split; [exact Hrun|].
    intros st e Hr Hlt He. apply (proj1 Hrun).
    by apply (parse_raises_exn _ _ _ _ _ st).
  - intros template_gro out_gro w outcome. subst outcome.
    unfold venus2gro, venus2gro_parse.
    destruct (parse_template py_int py_float template_gro) as [t|e0].
    2:{ split; [by intros e [= ->]|discriminate]. }
    split; [discriminate|]. intros t' [= <-].
    pose proof (two_phases_run (gro py_float t)
                  (parse py_int py_float (gro py_float t) (minus_one <$> reorder)
                     venus_out) out_gro split w) as Hrun.
    assert (∀ st e,
              reaches py_int py_float (gro py_float t) (minus_one <$> reorder)
                venus_out st →
              cur_line_idx st < length venus_out →
              iteration py_int py_float (gro py_float t) (minus_one <$> reorder)
                venus_out st = Raise e →
              parse py_int py_float (gro py_float t) (minus_one <$> reorder)
                venus_out = Raise e) as Hloop.
    { intros st e Hr Hlt He. by apply (parse_raises_exn _ _ _ _ _ st). }
    change (Ok t ≫= ?f) with (f t). cbv beta.
    destruct (parse py_int py_float (gro py_float t) (minus_one <$> reorder)
                venus_out) as [tl|e1]; simpl.
    + split; [exact Hrun|]. intros st e Hr Hlt He.
      specialize (Hloop st e Hr Hlt He). discriminate Hloop.
    + split; [exact Hrun|]. intros st e Hr Hlt He.
      specialize (Hloop st e Hr Hlt He). by injection Hloop as ->.
  - apply g96_str_Ok.
Qed.

(** On [massless] the third turn raises; the earlier output is untouched. *)
Lemma C8_parse_before_write_witness :
  venus2g96 Num.int_of_string Num.float_of_string massless "traj.g96" None true
    earlier_output = (Raise IndexError, earlier_output).
Proof.
  refine (proj1 (proj1 (proj1 (C8_parse_before_write Num.int_of_string
                   Num.float_of_string massless None true)
                   "traj.g96" earlier_output)) IndexError _).
  vm_compute. reflexivity.
Defined.

(** On [short_atom_line] the parse returns a frame whose second position
    row has two components: the run raises after the rotation and the
    opening. *)
Example short_atom_line_phases :
  ∃ mol,
    venus2g96_parse Num.int_of_string Num.float_of_string short_atom_line None
      = Ok [[mol]] ∧
    first_bad (g96 Num.float_of_string) [mol] = Some IndexError ∧
    new_ops earlier_output
      (venus2g96 Num.int_of_string Num.float_of_string short_atom_line
         "traj.g96" None true earlier_output).2
      = [Rename "traj_1.g96" "#traj_1.1.g96#"; OpenW "traj_1.g96"].
Proof. eexists. repeat split; vm_compute; reflexivity. Qed.

(** * Further properties of the scanner *)

(** ** Reading a turn of the loop backwards *)

(** The state after the last statement of the loop body, [cur_line_idx += 1]. *)
Definition bump {M} (st : pstate M) : pstate M :=
  {| cur_line_idx := cur_line_idx st + 1;
     cur_traj_idx := cur_traj_idx st;
     num_atoms := num_atoms st;
     masses := masses st;
     traj_list := traj_list st |}.

Section Turns.
Variable py_int : string → option Z.
Variable py_float : string → option float.
Context {M : Type}.
Variable F : Flavour M.
Variable reorder_map : option ndarray.
Variable contents : list string.

Local Abbreviation header := (header py_int py_float F contents).
Local Abbreviation on_cycle := (on_cycle py_int py_float F reorder_map contents).
Local Abbreviation iteration := (iteration py_int py_float F reorder_map contents).
Local Abbreviation scan := (scan py_int py_float F reorder_map contents).
Local Abbreviation parse := (parse py_int py_float F reorder_map contents).

Implicit Types (st : pstate M) (line : string).

Lemma iteration_Ok st st' :
  iteration st = Ok st' ↔
  ∃ line st1 st4,
    header st = Ok (line, st1) ∧ on_cycle line st1 = Ok st4 ∧ st' = bump st4.
Proof.
  unfold iteration. split.
  - intros H. inv_ok H. subst st'. eauto 6.
  - intros (line & st1 & st4 & -> & Hc & ->). simpl. by rewrite Hc.
Qed.

(** A turn that sees no cycle anchor leaves the state as the header tests
    made it; a turn that sees one has converted the two fields of the anchor
    line, read the arrays of the frame, built the record and appended it to
    the last group. *)
Lemma on_cycle_Ok line st st' :
  on_cycle line st = Ok st' →
  (Py.contains anchor_cycle line = false ∧ st' = st) ∨
  (Py.contains anchor_cycle line = true ∧
   ∃ c_tok cur_cycle t_tok t xyz vel mol gs g,
     Py.split line !! 4 = Some c_tok ∧ py_int c_tok = Some cur_cycle ∧
     Py.split line !! 6 = Some t_tok ∧ py_float t_tok = Some t ∧
     frame_arrays py_float F reorder_map contents (masses st)
       (cur_line_idx st + 4) (Z.to_nat (num_atoms st)) = Ok (xyz, vel) ∧
     make_mol F (cur_traj_idx st) cur_cycle (t * 1.0e-02)%float
       (num_atoms st) xyz vel = Ok mol ∧
     traj_list st = gs ++ [g] ∧
     st' = {| cur_line_idx := cur_line_idx st + 4 + Z.to_nat (num_atoms st);
              cur_traj_idx := cur_traj_idx st;
              num_atoms := num_atoms st;
              masses := masses st;
              traj_list := gs ++ [g ++ [mol]] |}).
Proof.
  unfold on_cycle. destruct (Py.contains anchor_cycle line).
  2:{ intros [= <-]. by left. }
  intros H. right. split; [done|].
  destruct (Py.item (Py.split line) 4) as [c_tok|] eqn:H4; [simpl in H|done].
  destruct (to_int py_int c_tok) as [cur_cycle|] eqn:Hc; [simpl in H|done].
  destruct (Py.item (Py.split line) 6) as [t_tok|] eqn:H6; [simpl in H|done].
  destruct (to_float py_float t_tok) as [t|] eqn:Ht; [simpl in H|done].
  destruct (frame_arrays _ _ _ _ _ _ _) as [[xyz vel]|] eqn:Hfa; [simpl in H|done].
  destruct (make_mol _ _ _ _ _ _ _) as [mol|] eqn:Hmol; [simpl in H|done].
  destruct (append_last _ _) as [tl|] eqn:Hap; [simpl in H|done].
  injection H as <-. apply append_last_Ok in Hap as (gs & g & Htl & ->).
  apply item_Ok in H4, H6. apply or_raise_Ok in Hc, Ht.
  exists c_tok, cur_cycle, t_tok, t, xyz, vel, mol, gs, g. done.
Qed.

(** What the header tests may change. *)
Lemma header_Ok st line st1 :
  header st = Ok (line, st1) →
  (num_atoms st1 = num_atoms st ∨ check_num_atoms F (num_atoms st1) = Ok ()) ∧
  (traj_list st1 = traj_list st ∨ traj_list st1 = traj_list st ++ [[]]).
Proof.
  intros H. split.
  - unfold header in H.
    destruct (Py.item contents _) as [l|]; [simpl in H|done].
    destruct (on_num_atoms py_int F l st) as [s1|] eqn:H1; [simpl in H|done].
    destruct (on_masses py_float contents l s1) as [[l2 s2]|] eqn:H2;
      [simpl in H|done].
    destruct (on_traj py_int l2 s2) as [s3|] eqn:H3; [simpl in H|done].
    injection H as <- <-.
    apply on_masses_fields in H2 as (_ & Hn2 & _).
    apply on_traj_fields in H3 as (_ & Hn3 & _).
    rewrite Hn3, Hn2. unfold on_num_atoms in H1.
    destruct (Py.contains _ l); [|injection H1 as <-; by left].
    destruct (to_int py_int _) as [n|]; [simpl in H1|done].
    destruct (check_num_atoms F n) as [[]|] eqn:Hck; [simpl in H1|done].
    injection H1 as <-. by right.
  - destruct (header_traj _ _ _ _ _ _ _ H) as [?|[? _]]; auto.
Qed.

(** *** Invariants of the scan *)

Definition preserved (I : pstate M → Prop) : Prop :=
  ∀ st st', I st → iteration st = Ok st' → I st'.

Lemma scan_invariant (I : pstate M → Prop) rest : ∀ skip st st',
  preserved I → I st → scan skip rest st = Ok st' → I st'.
Proof.
  induction rest as [|l rest IH]; intros skip st st' Hstep HI H; simpl in H.
  - by injection H as <-.
  - destruct skip as [|k]; [|by eapply IH].
    apply bind_Ok in H as (st1 & Hit & H). eapply IH; [done| |exact H]. eauto.
Qed.

Lemma reaches_invariant (I : pstate M → Prop) st :
  preserved I → I init →
  reaches py_int py_float F reorder_map contents st → I st.
Proof. intros Hstep H0. induction 1; eauto. Qed.

Lemma parse_invariant (I : pstate M → Prop) traj_list' :
  preserved I → I init →
  parse = Ok traj_list' → ∃ st, I st ∧ traj_list st = traj_list'.
Proof.
  intros Hstep H0 H. unfold parse in H.
  destruct (scan 0 contents init) as [st|] eqn:Hs; [simpl in H|done].
  injection H as <-. exists st. split; [|done]. by eapply scan_invariant.
Qed.
End Turns.

(** ** What a frame holds *)

Lemma reorder_go_shape {A B} (P : A → Prop) (_xyz : list A) (_vel : list B) m :
  ∀ old xyz vel xyz' vel',
    reorder_go _xyz _vel old m xyz vel = Ok (xyz', vel') →
    (length xyz' = length xyz ∧ length vel' = length vel) ∧
    (Forall P _xyz → Forall P xyz → Forall P xyz').
Proof.
  induction m as [|j m IH]; intros old xyz vel xyz' vel' H; simpl in H.
  - by injection H as <- <-.
  - unfold Py.item_Z, Py.set_item in H.
    destruct (Py.norm_index (length _xyz) j ≫= _) as [x|] eqn:Hx; [simpl in H|done].
    destruct (old <? length xyz)%nat; [simpl in H|done].
    destruct (Py.norm_index (length _vel) j ≫= _) as [v|]; [simpl in H|done].
    destruct (old <? length vel)%nat; [simpl in H|done].
    apply IH in H as [[Hl1 Hl2] HP]. rewrite !length_insert in *.
    split; [done|]. intros H1 H2. apply HP; [done|].
    apply Forall_insert; [done|].
    destruct (Py.norm_index (length _xyz) j) as [k|]; [simpl in Hx|done].
    exact (Forall_lookup_1 P _xyz k x H1 Hx).
Qed.

Lemma reorder_frame_shape {A B} (P : A → Prop) reorder_map
    (xyz xyz' : list A) (vel vel' : list B) :
  reorder_frame reorder_map xyz vel = Ok (xyz', vel') →
  length xyz' = length xyz ∧ length vel' = length vel ∧
  (Forall P xyz → Forall P xyz').
Proof.
  destruct reorder_map as [[v|m]|]; simpl; [done| |by intros [= <- <-]].
  intros H. apply (reorder_go_shape P) in H as [[? ?] HP]. auto.
Qed.

Section Frames.
Variable py_int : string → option Z.
Variable py_float : string → option float.
Context {M : Type}.
Variable F : Flavour M.
Variable reorder_map : option ndarray.
Variable contents : list string.

(** The atom block, read backwards: one entry per atom, built from the
    fields of the atom's line. *)
Lemma atom_block_Ok ms idx n atoms :
  atom_block py_float F contents ms idx n = Ok atoms →
  length atoms = n ∧
  ∀ i, i < n → ∃ l xs v,
    contents !! (idx + 1 + i) = Some l ∧
    mapM (to_float py_float) (take 3 (Py.split l)) = Ok xs ∧
    atom_velocity F (Py.split l) ms i = Ok v ∧
    atoms !! i = Some ((λ x, 0.1 * x)%float <$> xs, v).
Proof.
  intros H. apply mapM_Ok_lookup in H as [Hlen H].
  rewrite length_seq in Hlen. split; [done|]. intros i Hi.
  destruct (H i i) as ([xs' v'] & Hat & Hp); [by apply lookup_seq_lt|].
  unfold parse_atom in Hp.
  destruct (Py.item contents (idx + 1 + i)) as [l|] eqn:Hl; [simpl in Hp|done].
  destruct (mapM _ (take 3 _)) as [xs|] eqn:Hxs; [simpl in Hp|done].
  destruct (atom_velocity F _ ms i) as [v|] eqn:Hv; [simpl in Hp|done].
  injection Hp as <- <-. apply item_Ok in Hl. eauto 8.
Qed.

Lemma frame_arrays_shape ms idx n xyz vel :
  frame_arrays py_float F reorder_map contents ms idx n = Ok (xyz, vel) →
  length xyz = n ∧ length vel = n ∧ Forall (λ row, length row ≤ 3) xyz.
Proof.
  unfold frame_arrays. intros H.
  destruct (atom_block _ _ _ _ _ _) as [atoms|] eqn:Hab; [simpl in H|done].
  apply atom_block_Ok in Hab as [Hlen Hab].
  apply (reorder_frame_shape (λ row, length row ≤ 3)) in H as (Hx & Hv & HP).
  rewrite !length_fmap in *. split; [lia|]. split; [lia|]. apply HP.
  apply Forall_fmap, Forall_lookup. intros i [xs v] Hi.
  destruct (Hab i) as (l & xs' & v' & _ & Hxs & _ & Hat).
  { apply lookup_lt_Some in Hi. lia. }
  rewrite Hat in Hi. injection Hi as <- <-. simpl.
  apply mapM_Ok_length in Hxs. rewrite length_fmap, Hxs, length_take. lia.
Qed.
End Frames.

Lemma g96_velocity_Ok py_float arr ms i v :
  g96_velocity py_float arr ms i = Ok v →
  ∃ ps m, mapM (to_float py_float) (drop 3 arr) = Ok ps ∧ ms !! i = Some m ∧
          v = (λ p, 10.0 * p / m)%float <$> ps.
Proof.
  unfold g96_velocity. intros H.
  destruct (mapM _ _) as [ps|]; [simpl in H|done].
  destruct (Py.item ms i) as [m|] eqn:Hm; [simpl in H|done].
  injection H as <-. apply item_Ok in Hm. eauto.
Qed.

(** The frame stored for a cycle block of venus2g96 (no reorder map), in
    terms of the lines of the source: [line] is the anchor line, [st1] the
    loop variables the block is entered with, [mol] the frame, [idx'] the
    cursor after the turn. *)
Definition g96_block_frame py_int py_float (contents : list string)
    (line : string) (st1 : pstate G96.G96Mol) (mol : G96.G96Mol) (idx' : nat) : Prop :=
  let n := Z.to_nat (num_atoms st1) in
  ∃ c_tok cur_cycle t_tok t,
    Py.split line !! 4 = Some c_tok ∧ py_int c_tok = Some cur_cycle ∧
    Py.split line !! 6 = Some t_tok ∧ py_float t_tok = Some t ∧
    G96.title mol = "" ∧
    G96.timestep mol = (cur_cycle, (t * 1.0e-02)%float) ∧
    G96.box mol = [0; 0; 0]%float ∧
    length (G96.position mol) = n ∧ length (G96.velocity mol) = n ∧
    idx' = cur_line_idx st1 + 5 + n ∧
    ∀ i, i < n → ∃ l xs ps m,
      contents !! (cur_line_idx st1 + 5 + i) = Some l ∧
      mapM (M := result) (to_float py_float) (take 3 (Py.split l)) = Ok xs ∧
      mapM (M := result) (to_float py_float) (drop 3 (Py.split l)) = Ok ps ∧
      masses st1 !! i = Some m ∧
      G96.position mol !! i = Some ((λ x, 0.1 * x)%float <$> xs) ∧
      G96.velocity mol !! i = Some ((λ p, 10.0 * p / m)%float <$> ps).

(** X1: Every frame venus2g96 stores is the conversion of its cycle block: the
    cycle is field 4 of the anchor line, the time field 6 times 1.0e-2;
    atom [i] is read from the line 5+i below the anchor, its position the
    first three fields times 0.1, its velocity the remaining fields times
    10.0 over the mass [masses[i]]; the cursor ends below the block. *)
Theorem g96_frame_of_block py_int py_float (contents : list string)
    (st : pstate G96.G96Mol) (line : string) (st1 st' : pstate G96.G96Mol) :
  header py_int py_float (g96 py_float) contents st = Ok (line, st1) →
  Py.contains anchor_cycle line = true →
  iteration py_int py_float (g96 py_float) None contents st = Ok st' →
  ∃ gs g mol,
    traj_list st1 = gs ++ [g] ∧ traj_list st' = gs ++ [g ++ [mol]] ∧
    g96_block_frame py_int py_float contents line st1 mol (cur_line_idx st').
Proof.
  intros Hh Hc Hit. apply iteration_Ok in Hit as (line' & st1' & st4 & Hh' & Hcy & ->).
  rewrite Hh in Hh'. injection Hh' as <- <-.
  apply on_cycle_Ok in Hcy as [[Hno _]|(_ & c_tok & cur_cycle & t_tok & t & xyz
    & vel & mol & gs & g & H4 & Hcyc & H6 & Ht & Hfa & Hmol & Htl & ->)];
    [congruence|].
  injection Hmol as <-. exists gs, g. eexists. split; [done|]. split; [done|].
  unfold frame_arrays in Hfa.
  destruct (atom_block _ _ _ _ _ _) as [atoms|] eqn:Hab; [simpl in Hfa|done].
  injection Hfa as <- <-. apply atom_block_Ok in Hab as [Hlen Hab].
  exists c_tok, cur_cycle, t_tok, t. simpl.
  rewrite !length_fmap. repeat (split; [done || lia|]).
  intros i Hi. destruct (Hab i Hi) as (l & xs & v & Hl & Hxs & Hv & Hat).
  apply g96_velocity_Ok in Hv as (ps & m & Hps & Hm & ->).
  exists l, xs, ps, m. rewrite !list_lookup_fmap, Hat. simpl.
  repeat split; try done. rewrite <- Hl. f_equal. lia.
Qed.

Lemma g96_frame_of_block_witness :
  ∃ gs g mol,
    [[]] = gs ++ [g] ∧ [[scenario_frame]] = gs ++ [g ++ [mol]] ∧
    g96_block_frame Num.int_of_string Num.float_of_string scenario
      (" THE CYCLE COUNT IS 100 TIME: 50.0" +:+ nl)
      {| cur_line_idx := 5; cur_traj_idx := 1; num_atoms := 2;
         masses := [1; 2]%float; traj_list := [[]] |} mol 12.
Proof.
  refine (g96_frame_of_block Num.int_of_string Num.float_of_string scenario
            {| cur_line_idx := 5; cur_traj_idx := 1; num_atoms := 2;
               masses := [1; 2]%float; traj_list := [[]] |}
            (" THE CYCLE COUNT IS 100 TIME: 50.0" +:+ nl)
            {| cur_line_idx := 5; cur_traj_idx := 1; num_atoms := 2;
               masses := [1; 2]%float; traj_list := [[]] |}
            {| cur_line_idx := 12; cur_traj_idx := 1; num_atoms := 2;
               masses := [1; 2]%float; traj_list := [[scenario_frame]] |}
            _ _ _); vm_compute; reflexivity.
Defined.

(** ** Invariants of the parsed trajectories *)

Section FrameInvariant.
Variable py_int : string → option Z.
Variable py_float : string → option float.
Context {M : Type}.
Variable F : Flavour M.
Variable reorder_map : option ndarray.
Variable contents : list string.

(** A property of atom counts that holds of 0 and of every count the
    flavour's check lets through, and a property of frames that holds of
    every record built from arrays of that many rows, holds of every frame
    parsed. *)
Lemma frames_invariant (N : Z → Prop) (P : M → Prop) traj_list' :
  N 0%Z → (∀ n, check_num_atoms F n = Ok () → N n) →
  (∀ cur_traj_idx cur_cycle cur_time n xyz vel mol,
     N n → length xyz = Z.to_nat n → length vel = Z.to_nat n →
     Forall (λ row, length row ≤ 3) xyz →
     make_mol F cur_traj_idx cur_cycle cur_time n xyz vel = Ok mol → P mol) →
  parse py_int py_float F reorder_map contents = Ok traj_list' →
  Forall (Forall P) traj_list'.
Proof.
  intros HN0 HN HP Hparse.
  destruct (parse_invariant py_int py_float F reorder_map contents
              (λ st, N (num_atoms st) ∧ Forall (Forall P) (traj_list st))
              traj_list') as (st & [_ Hst] & <-); try done.
  intros st st' [Hn Hall] Hit.
  apply iteration_Ok in Hit as (line & st1 & st4 & Hh & Hcy & ->). simpl.
  apply header_Ok in Hh as [Hn1 Htl1].
  assert (N (num_atoms st1)) as Hn1'.
  { destruct Hn1 as [->|Hck]; auto. }
  assert (Forall (Forall P) (traj_list st1)) as Hall1.
  { destruct Htl1 as [->| ->]; [done|]. apply Forall_app. by repeat constructor. }
  apply on_cycle_Ok in Hcy as [[_ ->]|(_ & c_tok & cur_cycle & t_tok & t & xyz
    & vel & mol & gs & g & _ & _ & _ & _ & Hfa & Hmol & Htl & ->)]; [done|].
  simpl. split; [done|].
  rewrite Htl in Hall1. apply Forall_app in Hall1 as [Hgs Hg].
  apply (proj1 (Forall_singleton _ _)) in Hg.
  apply Forall_app. split; [done|]. apply Forall_singleton, Forall_app.
  split; [done|]. apply Forall_singleton.
  apply frame_arrays_shape in Hfa as (Hx & Hv & Hrows). eauto.
Qed.
End FrameInvariant.

(** The two arrays of a frame have one row per atom, and a position row has
    at most three components. *)
Definition well_shaped (mol : G96.G96Mol) : Prop :=
  length (G96.position mol) = length (G96.velocity mol) ∧
  Forall (λ row, length row ≤ 3) (G96.position mol).

(** X2: Whatever the source and the reorder map, every frame venus2g96 parses
    has as many velocity rows as position rows, and no position row has
    more than three components. *)
Theorem g96_frames_well_shaped py_int py_float (contents : list string)
    (reorder : option ndarray) (traj_list' : list (list G96.G96Mol)) :
  venus2g96_parse py_int py_float contents reorder = Ok traj_list' →
  Forall (Forall well_shaped) traj_list'.
Proof.
  unfold venus2g96_parse.
  apply (frames_invariant _ _ _ _ _ (λ _, True)); [done..|].
  intros ? ? ? n xyz vel mol _ Hx Hv Hrows [= <-]. split; simpl; [congruence|done].
Qed.

Lemma g96_frames_well_shaped_witness : Forall (Forall well_shaped) [[scenario_frame]].
Proof.
  refine (g96_frames_well_shaped Num.int_of_string Num.float_of_string
            scenario None _ _).
  vm_compute. reflexivity.
Defined.

(** ** A reorder file holding a single number *)

(** X3: [np.loadtxt] turns a file with one number into a 0-d array, which the
    reorder loop cannot iterate: with such a file no frame is ever stored.
    A parse that succeeds has met no cycle anchor, and every group of its
    result is empty, in both programs. *)
Theorem single_number_reorder_file py_int py_float (contents : list string)
    (v : Z) :
  (∀ traj_list',
     venus2g96_parse py_int py_float contents (Some (Arr0 v)) = Ok traj_list' →
     Forall (λ g, g = []) traj_list') ∧
  (∀ template_gro t traj_list',
     venus2gro_parse py_int py_float contents template_gro (Some (Arr0 v))
       = Ok (t, traj_list') →
     Forall (λ g, g = []) traj_list').
Proof.
  assert (∀ M (F : Flavour M) tl,
            parse py_int py_float F (Some (Arr0 (wrap32 (v - 1)))) contents = Ok tl →
            Forall (λ g, g = []) tl) as Hgen.
  { intros M F tl Hparse.
    destruct (parse_invariant py_int py_float F
                (Some (Arr0 (wrap32 (v - 1)))) contents
                (λ st, Forall (λ g, g = []) (traj_list st)) tl)
      as (st & Hst & <-); try done.
    intros st st' Hall Hit.
    apply iteration_Ok in Hit as (line & st1 & st4 & Hh & Hcy & ->). simpl.
    apply header_Ok in Hh as [_ Htl1].
    assert (Forall (λ g, g = []) (traj_list st1)) as Hall1.
    { destruct Htl1 as [->| ->]; [done|]. apply Forall_app. by repeat constructor. }
    apply on_cycle_Ok in Hcy as [[_ ->]|(_ & c_tok & cur_cycle & t_tok & t & xyz
      & vel & mol & gs & g & _ & _ & _ & _ & Hfa & _)]; [done|].
    unfold frame_arrays in Hfa. by destruct (atom_block _ _ _ _ _ _). }
  split.
  - intros tl. apply Hgen.
  - intros template_gro t tl H. unfold venus2gro_parse in H.
    destruct (parse_template _ _ _) as [t'|]; [simpl in H|done].
    destruct (parse _ _ _ _ _) as [tl'|] eqn:Hp; [simpl in H|done].
    injection H as <- <-. by eapply Hgen.
Qed.

Lemma single_number_reorder_file_witness :
  Forall (λ g : list G96.G96Mol, g = []) [[]].
Proof.
  refine (proj1 (single_number_reorder_file Num.int_of_string Num.float_of_string
                   (take 5 scenario) 1) _ _).
  vm_compute. reflexivity.
Defined.

Example single_number_reorder_scenario :
  venus2g96_parse Num.int_of_string Num.float_of_string scenario (Some (Arr0 1))
    = Raise TypeError.
Proof. vm_compute. reflexivity. Qed.

(** ** Nothing parsed is dropped *)

(** Group by group, [tl] is a prefix of [tl']: the groups of [tl] are still
    there, in place, each with its frames first and in order. *)
Definition grows {M} (tl tl' : list (list M)) : Prop :=
  ∃ more new, Forall2 (λ g k, True) tl more ∧
    tl' = zip_with app tl more ++ new.

Lemma grows_refl {M} (tl : list (list M)) : grows tl tl.
Proof.
  exists (replicate (length tl) []), []. split.
  - induction tl; constructor; done.
  - rewrite app_nil_r. induction tl as [|g tl IH]; [done|]. simpl.
    by rewrite app_nil_r, <- IH.
Qed.

Lemma grows_trans {M} (tl1 tl2 tl3 : list (list M)) :
  grows tl1 tl2 → grows tl2 tl3 → grows tl1 tl3.
Proof.
  intros (more1 & new1 & H1 & ->) (more2 & new2 & H2 & ->).
  apply Forall2_app_inv_l in H2 as (m2a & m2b & H2a & H2b & ->).
  assert (length (zip_with app tl1 more1) = length tl1) as Hlen.
  { rewrite length_zip_with. apply Forall2_length in H1. lia. }
  exists (zip_with app more1 m2a), (zip_with app new1 m2b ++ new2). split.
  - apply Forall2_length in H1, H2a. rewrite Hlen in H2a. clear -H1 H2a.
    revert more1 m2a H1 H2a.
    induction tl1; intros [|??] [|??] ??; simplify_eq/=; constructor; auto.
  - apply Forall2_length in H1, H2a, H2b. rewrite Hlen in H2a.
    rewrite zip_with_app by (rewrite Hlen; lia).
    rewrite <- app_assoc. f_equal. clear -H1 H2a.
    revert more1 m2a H1 H2a.
    induction tl1; intros [|??] [|??] ??; simplify_eq/=; [done|].
    rewrite <- app_assoc. f_equal. auto.
Qed.

Lemma grows_lookup {M} (tl tl' : list (list M)) (k : nat) (g : list M) :
  grows tl tl' → tl !! k = Some g → ∃ g', tl' !! k = Some g' ∧ g `prefix_of` g'.
Proof.
  intros (more & new & H & ->) Hk.
  destruct (Forall2_lookup_l _ _ _ _ _ H Hk) as (m & Hm & _).
  exists (g ++ m). split; [|by exists m].
  apply lookup_app_l_Some. rewrite lookup_zip_with, Hk. simpl. by rewrite Hm.
Qed.

Section Growth.
Variable py_int : string → option Z.
Variable py_float : string → option float.
Context {M : Type}.
Variable F : Flavour M.
Variable reorder_map : option ndarray.
Variable contents : list string.

Lemma iteration_grows (st st' : pstate M) :
  iteration py_int py_float F reorder_map contents st = Ok st' →
  grows (traj_list st) (traj_list st').
Proof.
  intros Hit. apply iteration_Ok in Hit as (line & st1 & st4 & Hh & Hcy & ->).
  simpl. apply grows_trans with (traj_list st1).
  - apply header_Ok in Hh as [_ [->| ->]]; [apply grows_refl|].
    destruct (grows_refl (traj_list st)) as (more & new & H & Heq).
    exists more, (new ++ [[]]). split; [done|].
    by rewrite app_assoc, <- Heq.
  - apply on_cycle_Ok in Hcy as [[_ ->]|(_ & c_tok & cur_cycle & t_tok & t & xyz
      & vel & mol & gs & g & _ & _ & _ & _ & _ & _ & Htl & ->)];
      [apply grows_refl|].
    simpl. rewrite Htl.
    exists (replicate (length gs) [] ++ [[mol]]), []. split.
    + apply Forall2_app; [|by repeat constructor].
      clear. induction gs; constructor; done.
    + rewrite app_nil_r, zip_with_app by (by rewrite length_replicate).
      simpl. f_equal. clear. induction gs as [|x gs IH]; [done|]. simpl.
      by rewrite app_nil_r, <- IH.
Qed.

(** X4: The trajectory list only grows: the list held at any point of the scan
    is, group by group, a prefix of the list the parse returns.  No frame
    once stored is dropped, moved to another group, or reordered. *)
Theorem parsed_frames_are_kept (st : pstate M) (traj_list' : list (list M)) :
  reaches py_int py_float F reorder_map contents st →
  parse py_int py_float F reorder_map contents = Ok traj_list' →
  grows (traj_list st) traj_list' ∧
  ∀ k g, traj_list st !! k = Some g →
         ∃ g', traj_list' !! k = Some g' ∧ g `prefix_of` g'.
Proof.
  intros Hr Hparse.
  assert (grows (traj_list st) traj_list') as Hg.
  { rewrite parse_while, (reaches_while _ _ _ _ _ st Hr) in Hparse.
    unfold while in Hparse.
    destruct (scan _ _ _ _ _ _ _ _) as [sf|] eqn:Hs; [simpl in Hparse|done].
    injection Hparse as <-.
    eapply (scan_invariant py_int py_float F reorder_map contents
              (λ s, grows (traj_list st) (traj_list s))); [| |exact Hs].
    - intros s s' Hgs Hit. eapply grows_trans; [exact Hgs|]. by apply iteration_grows.
    - apply grows_refl. }
  split; [done|]. intros k g Hk. by eapply grows_lookup.
Qed.
End Growth.

(** The state after [k] turns of the loop from [st]. *)
Fixpoint turns py_int py_float {M} (F : Flavour M) reorder_map contents
    (k : nat) (st : pstate M) : result (pstate M) :=
  match k with
  | O => Ok st
  | S k' =>
      iteration py_int py_float F reorder_map contents st
        ≫= turns py_int py_float F reorder_map contents k'
  end.

Lemma reaches_turns py_int py_float {M} (F : Flavour M) reorder_map contents
    (k : nat) : ∀ (st st' : pstate M),
  reaches py_int py_float F reorder_map contents st →
  turns py_int py_float F reorder_map contents k st = Ok st' →
  reaches py_int py_float F reorder_map contents st'.
Proof.
  induction k as [|k IH]; intros st st' Hr H; simpl in H.
  - by injection H as <-.
  - apply bind_Ok in H as (st1 & Hit & H). eapply IH; [|exact H].
    eapply reaches_step; [done| |done].
    apply iteration_Ok in Hit as (line & s1 & s4 & Hh & _).
    by apply header_idx in Hh as [? _].
Qed.

Lemma parsed_frames_are_kept_witness :
  grows [[empty_frame 10]; [empty_frame 20]]
        [[empty_frame 10]; [empty_frame 20; empty_frame 30]] ∧
  ∀ k g, [[empty_frame 10]; [empty_frame 20]] !! k = Some g →
         ∃ g', [[empty_frame 10]; [empty_frame 20; empty_frame 30]] !! k = Some g' ∧
               g `prefix_of` g'.
Proof.
  refine (parsed_frames_are_kept Num.int_of_string Num.float_of_string
            (g96 Num.float_of_string) None redeclared
            {| cur_line_idx := 13; cur_traj_idx := 1; num_atoms := 0;
               masses := []; traj_list := [[empty_frame 10]; [empty_frame 20]] |}
            _ _ _).
  - apply (reaches_turns _ _ _ _ _ 5 init); [apply reaches_init|].
    vm_compute. reflexivity.
  - vm_compute. reflexivity.
Defined.

(** * Further properties of venus2gro *)

(** ** The template *)

Section TemplateFacts.
Variable py_int : string → option Z.
Variable py_float : string → option float.

Lemma template_atoms_Ok n : ∀ lines t rest t',
  template_atoms py_int n lines t = Ok (rest, t') →
  (∃ used, lines = used ++ rest ∧ length used = n) ∧
  Gro.temp_title t' = Gro.temp_title t ∧
  Gro.temp_num_atoms t' = Gro.temp_num_atoms t ∧
  Gro.temp_box_size t' = Gro.temp_box_size t ∧
  length (Gro.temp_resi_num t') = length (Gro.temp_resi_num t) + n ∧
  length (Gro.temp_resi_name t') = length (Gro.temp_resi_name t) + n ∧
  length (Gro.temp_atom_name t') = length (Gro.temp_atom_name t) + n ∧
  length (Gro.temp_atom_num t') = length (Gro.temp_atom_num t) + n.
Proof.
  induction n as [|n IH]; intros lines t rest t' H; simpl in H.
  - injection H as <- <-. split; [by exists []|]. repeat split; lia.
  - destruct lines as [|line lines]; [done|]. simpl in H.
    destruct (to_int py_int (Py.slice 0 5 line)) as [rn|]; [simpl in H|done].
    destruct (to_int py_int (Py.slice 15 20 line)) as [an|]; [simpl in H|done].
    apply IH in H as ((used & -> & Hu) & Ht & Hn & Hb & H1 & H2 & H3 & H4).
    simpl in *. rewrite !length_app in *. simpl in *.
    split; [exists (line :: used); simpl; split; [done|lia]|].
    repeat split; try done; lia.
Qed.

Lemma template_atoms_more n : ∀ lines t rest t' extra,
  template_atoms py_int n lines t = Ok (rest, t') →
  template_atoms py_int n (lines ++ extra) t = Ok (rest ++ extra, t').
Proof.
  induction n as [|n IH]; intros lines t rest t' extra H; simpl in *.
  - by injection H as <- <-.
  - destruct lines as [|line lines]; [done|]. simpl in *.
    destruct (to_int py_int (Py.slice 0 5 line)) as [rn|]; [simpl in *|done].
    destruct (to_int py_int (Py.slice 15 20 line)) as [an|]; [simpl in *|done].
    by apply IH.
Qed.

Lemma parse_template_Ok (temp_contents : list string) (t : Gro.Template) :
  parse_template py_int py_float temp_contents = Ok t →
  let n := Z.to_nat (Gro.temp_num_atoms t) in
  n + 3 ≤ length temp_contents ∧
  length (Gro.temp_resi_num t) = n ∧ length (Gro.temp_resi_name t) = n ∧
  length (Gro.temp_atom_name t) = n ∧ length (Gro.temp_atom_num t) = n ∧
  ∀ extra, parse_template py_int py_float (temp_contents ++ extra) = Ok t.
Proof.
  unfold parse_template. intros H.
  destruct temp_contents as [|l1 [|l2 lines]]; [done..|]. simpl in H.
  destruct (to_int py_int l2) as [n|] eqn:Hl2; [simpl in H|done].
  destruct (template_atoms _ _ _ _) as [[rest t']|] eqn:Hat; [simpl in H|done].
  destruct rest as [|l3 rest]; [done|]. simpl in H.
  destruct (mapM _ _) as [bs|] eqn:Hbs; [simpl in H|done].
  injection H as <-. simpl.
  pose proof (λ extra, template_atoms_more _ _ _ _ _ extra Hat) as Hmore.
  apply template_atoms_Ok in Hat
    as ((used & -> & Hu) & Ht & Hn & Hb & H1 & H2 & H3 & H4).
  simpl in *. rewrite Hn. rewrite !length_app. simpl.
  repeat split; try lia.
  intros extra. simpl. rewrite Hl2. simpl. rewrite (Hmore extra). simpl.
  rewrite Hbs. simpl. by rewrite Hn.
Qed.

(** X5: A template that is read successfully has a title line, a count line,
    one line per atom and a box line: at least [temp_num_atoms + 3] lines;
    each of the four per-atom lists has exactly [temp_num_atoms] entries
    (none when the count is negative); and lines after the box line are
    never looked at. *)
Theorem template_is_consistent (temp_contents : list string) (t : Gro.Template) :
  parse_template py_int py_float temp_contents = Ok t →
  let n := Z.to_nat (Gro.temp_num_atoms t) in
  n + 3 ≤ length temp_contents ∧
  length (Gro.temp_resi_num t) = n ∧ length (Gro.temp_resi_name t) = n ∧
  length (Gro.temp_atom_name t) = n ∧ length (Gro.temp_atom_num t) = n ∧
  ∀ extra, parse_template py_int py_float (temp_contents ++ extra) = Ok t.
Proof. apply parse_template_Ok. Qed.
End TemplateFacts.

(** What [template2] reads as. *)
Definition template2_read : Gro.Template := {|
  Gro.temp_title := "two atoms";
  Gro.temp_num_atoms := 2;
  Gro.temp_resi_num := [1; 1]%Z;
  Gro.temp_resi_name := ["MOL"; "MOL"];
  Gro.temp_atom_name := ["   C1"; "   C2"];
  Gro.temp_atom_num := [1; 2]%Z;
  Gro.temp_box_size := [1; 1; 1]%float;
|}.

Lemma template_is_consistent_witness :
  2 + 3 ≤ length template2 ∧
  length (Gro.temp_resi_num template2_read) = 2 ∧
  length (Gro.temp_resi_name template2_read) = 2 ∧
  length (Gro.temp_atom_name template2_read) = 2 ∧
  length (Gro.temp_atom_num template2_read) = 2 ∧
  ∀ extra,
    parse_template Num.int_of_string Num.float_of_string (template2 ++ extra)
    = Ok template2_read.
Proof.
  refine (template_is_consistent Num.int_of_string Num.float_of_string
            template2 template2_read _).
  vm_compute. reflexivity.
Defined.

(** ** The frames of venus2gro *)

Lemma three_fields_Ok (row : list float) u :
  three_fields row = Ok u ↔ 3 ≤ length row.
Proof.
  unfold three_fields. destruct (Nat.leb_spec 3 (length row)); destruct u.
  - done.
  - split; [done|lia].
Qed.

Lemma np_array_Ok (rows rows' : list (list float)) :
  np_array rows = Ok rows' → rows' = rows.
Proof.
  unfold np_array. destruct rows as [|r rest]; [congruence|].
  destruct (forallb _ _); congruence.
Qed.

(** Every row of both arrays has the three components [__str__] formats,
    and so has the box. *)
Definition three_wide (m : Gro.GroMol) : Prop :=
  Forall (λ row, 3 ≤ length row) (Gro.xyz m) ∧
  Forall (λ row, 3 ≤ length row) (Gro.vel m) ∧
  3 ≤ length (Gro.box_size m).

(** The frame agrees with the template [t]: its atom count is 0 (no count
    declared yet) or the template's, both arrays have one row per atom, and
    the per-atom lists and the box are the template's. *)
Definition from_template (t : Gro.Template) (m : Gro.GroMol) : Prop :=
  (Gro.num_atoms m = 0%Z ∨ Gro.num_atoms m = Gro.temp_num_atoms t) ∧
  length (Gro.xyz m) = Z.to_nat (Gro.num_atoms m) ∧
  length (Gro.vel m) = Z.to_nat (Gro.num_atoms m) ∧
  Gro.resi_num m = Gro.temp_resi_num t ∧
  Gro.resi_name m = Gro.temp_resi_name t ∧
  Gro.atom_name m = Gro.temp_atom_name t ∧
  Gro.atom_num m = Gro.temp_atom_num t ∧
  Gro.box_size m = Gro.temp_box_size t.

Lemma gro_str_three_wide (m : Gro.GroMol) :
  let n := Z.to_nat (Gro.num_atoms m) in
  length (Gro.xyz m) = n → length (Gro.vel m) = n →
  n ≤ length (Gro.resi_num m) → n ≤ length (Gro.resi_name m) →
  n ≤ length (Gro.atom_name m) → n ≤ length (Gro.atom_num m) →
  gro_str m = Ok () ↔ three_wide m.
Proof.
  intros n Hx Hv H1 H2 H3 H4. unfold gro_str, three_wide. fold n. split.
  - intros H.
    destruct (mapM _ (seq 0 n)) as [k|] eqn:Hm; [simpl in H|done].
    apply three_fields_Ok in H. split; [|split; [|done]].
    + apply Forall_lookup. intros i row Hi.
      apply mapM_Ok_lookup in Hm as [_ Hm].
      destruct (Hm i i) as (u & _ & Hb).
      { apply lookup_seq_lt. apply lookup_lt_Some in Hi. lia. }
      apply lookup_lt_Some in Hi as Hin.
      destruct (lookup_lt_is_Some_2 (Gro.resi_num m) i) as [? E1]; [lia|].
      destruct (lookup_lt_is_Some_2 (Gro.resi_name m) i) as [? E2]; [lia|].
      destruct (lookup_lt_is_Some_2 (Gro.atom_name m) i) as [? E3]; [lia|].
      destruct (lookup_lt_is_Some_2 (Gro.atom_num m) i) as [? E4]; [lia|].
      unfold Py.item in Hb. rewrite E1, E2, E3, E4, Hi in Hb. simpl in Hb.
      destruct (three_fields row) as [[]|] eqn:Hrow; [|done].
      by apply three_fields_Ok in Hrow.
    + apply Forall_lookup. intros i row Hi.
      apply mapM_Ok_lookup in Hm as [_ Hm].
      destruct (Hm i i) as (u & _ & Hb).
      { apply lookup_seq_lt. apply lookup_lt_Some in Hi. lia. }
      apply lookup_lt_Some in Hi as Hin.
      destruct (lookup_lt_is_Some_2 (Gro.resi_num m) i) as [? E1]; [lia|].
      destruct (lookup_lt_is_Some_2 (Gro.resi_name m) i) as [? E2]; [lia|].
      destruct (lookup_lt_is_Some_2 (Gro.atom_name m) i) as [? E3]; [lia|].
      destruct (lookup_lt_is_Some_2 (Gro.atom_num m) i) as [? E4]; [lia|].
      destruct (lookup_lt_is_Some_2 (Gro.xyz m) i) as [xr E5]; [lia|].
      unfold Py.item in Hb. rewrite E1, E2, E3, E4, E5, Hi in Hb. simpl in Hb.
      destruct (three_fields xr) as [[]|]; [simpl in Hb|done].
      by apply three_fields_Ok in Hb.
  - intros (Hxs & Hvs & Hb).
    rewrite (mapM_all_Ok _ _ (λ _, ())).
    { simpl. by apply three_fields_Ok. }
    intros i Hi. apply elem_of_seq in Hi.
    destruct (lookup_lt_is_Some_2 (Gro.resi_num m) i) as [? E1]; [lia|].
    destruct (lookup_lt_is_Some_2 (Gro.resi_name m) i) as [? E2]; [lia|].
    destruct (lookup_lt_is_Some_2 (Gro.atom_name m) i) as [? E3]; [lia|].
    destruct (lookup_lt_is_Some_2 (Gro.atom_num m) i) as [? E4]; [lia|].
    destruct (lookup_lt_is_Some_2 (Gro.xyz m) i) as [xr Hxi]; [lia|].
    destruct (lookup_lt_is_Some_2 (Gro.vel m) i) as [vr Hvi]; [lia|].
    unfold Py.item. rewrite E1, E2, E3, E4, Hxi, Hvi. simpl.
    rewrite (proj2 (three_fields_Ok xr ()) (Forall_lookup_1 _ _ _ _ Hxs Hxi)).
    simpl. apply three_fields_Ok. exact (Forall_lookup_1 _ _ _ _ Hvs Hvi).
Qed.

(** X6: Every frame venus2gro parses agrees with the template it read, whatever
    the source and the reorder map; formatting such a frame therefore never
    fails on the template's per-atom lists: it succeeds exactly when every
    row of its two arrays, and the template's box, have three components. *)
Theorem gro_frames_from_template py_int py_float
    (contents template_gro : list string) (reorder : option ndarray)
    (t : Gro.Template) (traj_list' : list (list Gro.GroMol)) :
  venus2gro_parse py_int py_float contents template_gro reorder
    = Ok (t, traj_list') →
  Forall (Forall (λ m, from_template t m ∧ (gro_str m = Ok () ↔ three_wide m)))
    traj_list'.
Proof.
  unfold venus2gro_parse. intros H.
  destruct (parse_template _ _ _) as [t'|] eqn:Ht; [simpl in H|done].
  destruct (parse _ _ _ _ _) as [tl|] eqn:Hp; [simpl in H|done].
  injection H as <- <-.
  apply parse_template_Ok in Ht as (_ & H1 & H2 & H3 & H4 & _).
  eapply (frames_invariant _ _ _ _ _
            (λ n, n = 0%Z ∨ n = Gro.temp_num_atoms t')); [..|exact Hp].
  - by left.
  - intros n. simpl. destruct (Z.eqb_spec n (Gro.temp_num_atoms t')); [by right|done].
  - intros cti cyc time n xyz vel mol Hn Hx Hv _ Hmol. simpl in Hmol.
    destruct (np_array xyz) as [xyz'|] eqn:Hax; [simpl in Hmol|done].
    destruct (np_array vel) as [vel'|] eqn:Hav; [simpl in Hmol|done].
    apply np_array_Ok in Hax as ->. apply np_array_Ok in Hav as ->.
    injection Hmol as <-.
    split.
    { unfold from_template. simpl. repeat split; done. }
    apply gro_str_three_wide; simpl; try done.
    all: destruct Hn as [-> | ->]; simpl; lia.
Qed.

Lemma gro_frames_from_template_witness :
  Forall (Forall (λ m, from_template template2_read m ∧
                       (gro_str m = Ok () ↔ three_wide m)))
    [[ {| Gro.title := ("two atoms", 1%Z, 0.5%float);
          Gro.num_atoms := 2;
          Gro.resi_num := [1; 1]%Z;
          Gro.resi_name := ["MOL"; "MOL"];
          Gro.atom_name := ["   C1"; "   C2"];
          Gro.atom_num := [1; 2]%Z;
          Gro.xyz := G96.position scenario_frame;
          Gro.vel := G96.velocity scenario_frame;
          Gro.box_size := [1; 1; 1]%float |} ]].
Proof.
  refine (gro_frames_from_template Num.int_of_string Num.float_of_string
            scenario template2 None template2_read _ _).
  vm_compute. reflexivity.
Defined.

(** * Further properties of the reordering *)

(** ** Reordering there and back *)

(** X7: Reordering by [p] and then by a map [q] with [p[q[i]] = i] gives the
    arrays back: the second step reads the arrays the first one left. *)
Theorem reorder_round_trip {A B} (xyz : list A) (vel : list B) (p q : list nat) :
  length vel = length xyz → length p = length xyz → length q = length xyz →
  Forall (λ j, j < length xyz) p →
  (∀ i j, q !! i = Some j → p !! j = Some i) →
  ∃ xyz1 vel1,
    reorder_frame (Some (Arr1 (Z.of_nat <$> p))) xyz vel = Ok (xyz1, vel1) ∧
    reorder_frame (Some (Arr1 (Z.of_nat <$> q))) xyz1 vel1 = Ok (xyz, vel).
Proof.
  intros Hv Hp Hq Hrange Hinv.
  assert (Hqr : ∀ i j, q !! i = Some j → j < length xyz).
  { intros i j Hj. apply Hinv, lookup_lt_Some in Hj. lia. }
  destruct (reorder_go_Ok xyz vel (Z.of_nat <$> p) 0 xyz vel)
    as (xyz1 & vel1 & H1 & Hx1 & Hv1 & Hpick1); try done.
  { rewrite length_fmap. lia. }
  { apply Forall_fmap. eapply Forall_impl; [exact Hrange|].
    intros j Hj. simpl. rewrite norm_index_of_nat by done. eauto. }
  exists xyz1, vel1. split; [done|].
  destruct (reorder_go_Ok xyz1 vel1 (Z.of_nat <$> q) 0 xyz1 vel1)
    as (xyz2 & vel2 & H2 & Hx2 & Hv2 & Hpick2); try done; try congruence.
  { rewrite length_fmap. lia. }
  { apply Forall_fmap, Forall_lookup. intros i j Hj. simpl.
    rewrite norm_index_of_nat by (rewrite Hx1; eauto). eauto. }
  simpl. rewrite H2.
  assert (∀ X (l l1 l2 : list X),
            length l1 = length l → length l = length xyz →
            (∀ i, l1 !! i = picked l l 0 (Z.of_nat <$> p) i) →
            (∀ i, l2 !! i = picked l1 l1 0 (Z.of_nat <$> q) i) → l2 = l) as Hback.
  { intros X l l1 l2 Hl1 Hl Hp1 Hp2. apply list_eq. intros i.
    rewrite Hp2. unfold picked. rewrite Nat.sub_0_r, length_fmap, list_lookup_fmap.
    case_decide as Hi.
    - destruct (lookup_lt_is_Some_2 q i) as [j Hj]; [lia|]. rewrite Hj. simpl.
      rewrite norm_index_of_nat by (rewrite Hl1, Hl; eauto). simpl.
      rewrite Hp1. unfold picked.
      rewrite Nat.sub_0_r, length_fmap, list_lookup_fmap.
      rewrite decide_True by (split; [lia|]; apply Hqr in Hj; lia).
      rewrite (Hinv _ _ Hj). simpl.
      rewrite norm_index_of_nat by lia. done.
    - rewrite Hp1. unfold picked. rewrite length_fmap.
      rewrite decide_False by lia. done. }
  f_equal. f_equal.
  - apply (Hback _ xyz xyz1); try done. all: intros i; apply Hpick1 || apply Hpick2.
  - apply (Hback _ vel vel1); try done; try congruence.
    all: intros i; apply Hpick1 || apply Hpick2.
Qed.

Lemma reorder_round_trip_witness :
  ∃ xyz1 vel1,
    reorder_frame (Some (Arr1 (Z.of_nat <$> [2; 0; 1]))) ["a"; "b"; "c"] [10; 20; 30]
      = Ok (xyz1, vel1) ∧
    reorder_frame (Some (Arr1 (Z.of_nat <$> [1; 2; 0]))) xyz1 vel1
      = Ok (["a"; "b"; "c"], [10; 20; 30]).
Proof.
  refine (reorder_round_trip ["a"; "b"; "c"] [10; 20; 30] [2; 0; 1] [1; 2; 0]
            eq_refl eq_refl eq_refl _ _).
  - repeat constructor; simpl; lia.
  - intros [|[|[|i]]] j; simpl; intros [= <-]; reflexivity.
Defined.

(** ** A reorder file that lists the atoms in order *)

Lemma item_Z_of_nat {A} (l : list A) (i : nat) (x : A) :
  Py.item_Z l (Z.of_nat i) = Ok x → l !! i = Some x.
Proof.
  unfold Py.item_Z, Py.norm_index. intros H. apply or_raise_Ok in H.
  destruct (Z.leb_spec 0 (Z.of_nat i)); [|lia].
  destruct (Z.of_nat i <? Z.of_nat (length l))%Z; [|done].
  simpl in H. by rewrite Nat2Z.id in H.
Qed.

Lemma set_item_same {A} (l l' : list A) (i : nat) (x : A) :
  l !! i = Some x → Py.set_item l i x = Ok l' → l' = l.
Proof.
  intros Hx. unfold Py.set_item. destruct (i <? length l); [|done].
  intros [= <-]. by apply list_insert_id.
Qed.

(** The loop over the map [old; old+1; ...] stores every element where it
    was read. *)
Lemma reorder_go_identity {A B} (l1 : list A) (l2 : list B) k : ∀ old r,
  reorder_go l1 l2 old (Z.of_nat <$> seq old k) l1 l2 = Ok r → r = (l1, l2).
Proof.
  induction k as [|k IH]; intros old r H; simpl in H.
  - by injection H.
  - destruct (Py.item_Z l1 (Z.of_nat old)) as [x|] eqn:Hx; [simpl in H|done].
    destruct (Py.set_item l1 old x) as [l1'|] eqn:Hsx; [simpl in H|done].
    destruct (Py.item_Z l2 (Z.of_nat old)) as [v|] eqn:Hv; [simpl in H|done].
    destruct (Py.set_item l2 old v) as [l2'|] eqn:Hsv; [simpl in H|done].
    apply item_Z_of_nat in Hx, Hv.
    apply (set_item_same _ _ _ _ Hx) in Hsx as ->.
    apply (set_item_same _ _ _ _ Hv) in Hsv as ->.
    by apply IH in H.
Qed.

(** What the programs make of a file holding [1 2 ... k]. *)
Lemma minus_one_in_order (k : nat) :
  (Z.of_nat k < 2 ^ 31)%Z →
  minus_one (Arr1 (Z.of_nat <$> seq 1 k)) = Arr1 (Z.of_nat <$> seq 0 k).
Proof.
  intros Hk. simpl. f_equal. rewrite <- fmap_S_seq, <- !list_fmap_compose.
  apply list_fmap_ext. intros _ i Hi%list_elem_of_lookup_2%elem_of_seq. simpl.
  unfold wrap32. rewrite Z.mod_small by lia. lia.
Qed.

Section InOrder.
Variable py_int : string → option Z.
Variable py_float : string → option float.
Context {M : Type}.
Variable F : Flavour M.
Variable contents : list string.
Variable k : nat.

Local Abbreviation in_order := (Some (Arr1 (Z.of_nat <$> seq 0 k))).

Lemma iteration_in_order (st st' : pstate M) :
  iteration py_int py_float F in_order contents st = Ok st' →
  iteration py_int py_float F None contents st = Ok st'.
Proof.
  unfold iteration. intros H.
  destruct (header _ _ _ _ _) as [[line st3]|]; [simpl in *|done].
  destruct (on_cycle _ _ _ in_order _ _ _) as [st4|] eqn:Hcy; [simpl in H|done].
  enough (on_cycle py_int py_float F None contents line st3 = Ok st4) as ->; [done|].
  revert Hcy. unfold on_cycle.
  destruct (Py.contains anchor_cycle line); [|done].
  destruct (Py.item (Py.split line) 4) as [c_tok|]; [simpl|done].
  destruct (to_int py_int c_tok) as [cur_cycle|]; [simpl|done].
  destruct (Py.item (Py.split line) 6) as [t_tok|]; [simpl|done].
  destruct (to_float py_float t_tok) as [t|]; [simpl|done].
  unfold frame_arrays.
  destruct (atom_block _ _ _ _ _ _) as [atoms|]; [simpl|done].
  destruct (reorder_go _ _ _ _ _ _) as [r|] eqn:Hgo; [simpl|done].
  by apply reorder_go_identity in Hgo as ->.
Qed.

Lemma scan_in_order rest : ∀ skip (st st' : pstate M),
  scan py_int py_float F in_order contents skip rest st = Ok st' →
  scan py_int py_float F None contents skip rest st = Ok st'.
Proof.
  induction rest as [|l rest IH]; intros skip st st' H; simpl in *; [done|].
  destruct skip as [|n]; [|by apply IH].
  destruct (iteration _ _ _ in_order _ st) as [st1|] eqn:Hit; [simpl in H|done].
  rewrite (iteration_in_order _ _ Hit). simpl. by apply IH.
Qed.
End InOrder.

(** X8: A reorder file that lists [1 2 ... k] changes nothing: whenever the
    parsing phase succeeds with it, it succeeds without a reorder file and
    gives the same trajectories, in both programs. *)
Theorem reorder_file_in_order py_int py_float (contents : list string) (k : nat) :
  (Z.of_nat k < 2 ^ 31)%Z →
  let reorder := Some (Arr1 (Z.of_nat <$> seq 1 k)) in
  (∀ traj_list',
     venus2g96_parse py_int py_float contents reorder = Ok traj_list' →
     venus2g96_parse py_int py_float contents None = Ok traj_list') ∧
  (∀ template_gro r,
     venus2gro_parse py_int py_float contents template_gro reorder = Ok r →
     venus2gro_parse py_int py_float contents template_gro None = Ok r).
Proof.
  intros Hk reorder.
  assert (∀ M (F : Flavour M) tl,
            parse py_int py_float F (minus_one <$> reorder) contents = Ok tl →
            parse py_int py_float F None contents = Ok tl) as Hgen.
  { intros M F tl. unfold reorder, parse.
    change (minus_one <$> Some ?a) with (Some (minus_one a)).
    rewrite minus_one_in_order by done. intros H.
    destruct (scan _ _ _ (Some _) _ _ _ _) as [st|] eqn:Hs; [simpl in H|done].
    by rewrite (scan_in_order _ _ _ _ _ _ _ _ _ Hs). }
  split.
  - intros tl. apply Hgen.
  - intros template_gro r. unfold venus2gro_parse.
    destruct (parse_template _ _ _) as [t|]; [|done].
    pose proof (Hgen _ (gro py_float t)) as Ht. simpl in *.
    destruct (parse py_int py_float (gro py_float t) (Some _) contents)
      as [tl|]; [|done].
    by rewrite (Ht tl eq_refl).
Qed.

Lemma reorder_file_in_order_witness :
  venus2g96_parse Num.int_of_string Num.float_of_string scenario None
    = Ok [[scenario_frame]].
Proof.
  refine (proj1 (reorder_file_in_order Num.int_of_string Num.float_of_string
                   scenario 2 _) [[scenario_frame]] _).
  - vm_compute. reflexivity.
  - vm_compute. reflexivity.
Defined.

(** * Further properties of the writer *)

(** ** What the files hold after the writing phase *)

(** The names of backups start with a hash sign. *)
Definition starts_with_hash (p : string) : bool :=
  match p with
  | String c _ => Ascii.eqb c "#"
  | EmptyString => false
  end.

Section FileFacts.
Context {M : Type}.
Variable F : Flavour M.
Implicit Types (w : world M) (p name out : string) (traj : list M).

Lemma backup_files_ne file w p :
  p ≠ file → starts_with_hash p = false →
  files (_auto_backup_file F file w) !! p = files w !! p.
Proof.
  intros Hne Hp. unfold _auto_backup_file. destruct (negb _); [done|].
  cbn [rename files]. destruct (files w !! file); [|done].
  rewrite lookup_insert_ne, lookup_delete_ne; [done|congruence|].
  intros <-. discriminate Hp.
Qed.

Lemma write_frames_files name traj : ∀ w c,
  files w !! name = Some c →
  files (write_frames F name traj w).2 !! name = Some (c ++ good_prefix F traj).
Proof.
  induction traj as [|frame rest IH]; intros w c Hc; simpl.
  - by rewrite app_nil_r.
  - destruct (str_mol F frame); simpl; [|by rewrite app_nil_r].
    rewrite (IH _ (c ++ [frame])); [by rewrite <- app_assoc|].
    cbn [write files]. by rewrite lookup_alter_eq, Hc.
Qed.

Lemma write_frames_files_ne name traj p : ∀ w,
  p ≠ name → files (write_frames F name traj w).2 !! p = files w !! p.
Proof.
  induction traj as [|frame rest IH]; intros w Hne; simpl; [done|].
  destruct (str_mol F frame); simpl; [|done].
  rewrite IH by done. cbn [write files]. by rewrite lookup_alter_ne.
Qed.

(** One turn of the loop over the trajectories changes no file but the one
    it names and, possibly, one whose name starts with a hash sign. *)
Lemma write_trajs_files_ne out trajs p : ∀ traj_idx names w,
  starts_with_hash p = false →
  (∀ j, j < length trajs → traj_name F out (traj_idx + j) ≠ p) →
  files (write_trajs F out traj_idx trajs names w).2 !! p = files w !! p.
Proof.
  induction trajs as [|traj rest IH]; intros traj_idx names w Hp Hnames; [done|].
  cbn [write_trajs].
  set (name := traj_name F out traj_idx).
  assert (Hne : p ≠ name).
  { intros ->. apply (Hnames 0); [simpl; lia|]. by rewrite Nat.add_0_r. }
  pose proof (write_frames_files_ne name traj p
                (open_w name (_auto_backup_file F name w)) Hne) as Hw.
  destruct (write_frames F name traj _) as [[[]|e] w3]; cbn [snd] in *.
  - rewrite IH; [|done|].
    + rewrite Hw. cbn [open_w files].
      rewrite lookup_insert_ne by done. by apply backup_files_ne.
    + intros j Hj. replace (S traj_idx + j) with (traj_idx + S j) by lia.
      apply Hnames. simpl. lia.
  - rewrite Hw. cbn [open_w files].
    rewrite lookup_insert_ne by done. by apply backup_files_ne.
Qed.

(** The file written for trajectory [i] holds its frames at the end of the
    loop, when no later trajectory is given the same name. *)
Lemma write_trajs_files out trajs : ∀ traj_idx names w i traj,
  all_good F (concat trajs) = true → trajs !! i = Some traj →
  (∀ j, i < j < length trajs →
        traj_name F out (traj_idx + j) ≠ traj_name F out (traj_idx + i)) →
  (S i < length trajs → starts_with_hash (traj_name F out (traj_idx + i)) = false) →
  files (write_trajs F out traj_idx trajs names w).2 !! traj_name F out (traj_idx + i)
    = Some traj.
Proof.
  induction trajs as [|traj0 rest IH]; intros traj_idx names w i traj Hgood Hi Hlater Hp;
    [done|].
  cbn [concat] in Hgood. rewrite all_good_app in Hgood.
  apply andb_true_iff in Hgood as [Hgood0 Hgood].
  cbn [write_trajs].
  set (name := traj_name F out traj_idx).
  set (w2 := open_w name (_auto_backup_file F name w)).
  destruct (write_frames_spec F name traj0 w2) as (_ & Hok & _).
  specialize (Hok Hgood0).
  pose proof (write_frames_files name traj0 w2 []) as Hfile.
  destruct (write_frames F name traj0 w2) as [r w3]. cbn [fst snd] in *.
  subst r. rewrite (good_prefix_all F _ Hgood0) in Hfile.
  destruct i as [|i].
  - injection Hi as ->. rewrite Nat.add_0_r. fold name.
    rewrite Nat.add_0_r in Hlater, Hp.
    destruct rest as [|traj1 rest].
    + cbn [write_trajs snd]. apply Hfile. unfold w2. cbn [open_w files].
      by rewrite lookup_insert_eq.
    + rewrite write_trajs_files_ne.
      * apply Hfile. unfold w2. cbn [open_w files]. by rewrite lookup_insert_eq.
      * apply Hp. simpl. lia.
      * intros j Hj. replace (S traj_idx + j) with (traj_idx + S j) by lia.
        apply Hlater. simpl in *. lia.
  - replace (traj_idx + S i) with (S traj_idx + i) in * by lia.
    apply IH; try done.
    + intros j Hj. replace (S traj_idx + j) with (traj_idx + S j) by lia.
      apply Hlater. simpl. lia.
    + intros Hlt. apply Hp. simpl. lia.
Qed.
End FileFacts.

(** X9: After a writing phase in which every frame can be formatted: in split
    mode the file named for trajectory [i] holds exactly the frames of that
    trajectory, in order, provided no later trajectory is given the same
    name and the name does not start with a hash sign (the mark of a
    backup); with split mode off the one output file holds the frames of
    all trajectories, in trajectory order. *)
Theorem output_files_hold_trajectories {M} (F : Flavour M) (out : string)
    (trajs : list (list M)) (w : world M) :
  all_good F (concat trajs) = true →
  (∀ i traj,
     trajs !! i = Some traj →
     starts_with_hash (traj_name F out i) = false →
     (∀ j, i < j < length trajs → traj_name F out j ≠ traj_name F out i) →
     files (write_phase F out true trajs w).2 !! traj_name F out i = Some traj) ∧
  (trajs ≠ [] →
   files (write_phase F out false trajs w).2 !! traj_name F out 0
     = Some (concat trajs)).
Proof.
  intros Hgood. split.
  - intros i traj Hi Hp Hlater. unfold write_phase. cbn [regroup].
    apply (write_trajs_files F out trajs 0 [] w i traj); done.
  - intros Hne. unfold write_phase, regroup.
    destruct trajs as [|traj0 rest]; [done|].
    apply (write_trajs_files F out [concat (traj0 :: rest)] 0 [] w 0); try done.
    + cbn [concat]. by rewrite app_nil_r.
    + intros j Hj. simpl in Hj. lia.
    + simpl. lia.
Qed.

Lemma output_files_hold_trajectories_witness :
  (∀ i traj,
     [[run_frame 1]; [run_frame 2]] !! i = Some traj →
     starts_with_hash (traj_name (g96 Num.float_of_string) "out/traj.g96" i) = false →
     (∀ j, i < j < 2 →
           traj_name (g96 Num.float_of_string) "out/traj.g96" j
           ≠ traj_name (g96 Num.float_of_string) "out/traj.g96" i) →
     files (write_phase (g96 Num.float_of_string) "out/traj.g96" true
              [[run_frame 1]; [run_frame 2]] earlier_output).2
       !! traj_name (g96 Num.float_of_string) "out/traj.g96" i = Some traj) ∧
  ([[run_frame 1]; [run_frame 2]] ≠ [] →
   files (write_phase (g96 Num.float_of_string) "out/traj.g96" false
            [[run_frame 1]; [run_frame 2]] earlier_output).2
     !! traj_name (g96 Num.float_of_string) "out/traj.g96" 0
     = Some [run_frame 1; run_frame 2]).
Proof.
  refine (output_files_hold_trajectories (g96 Num.float_of_string) "out/traj.g96"
            [[run_frame 1]; [run_frame 2]] earlier_output _).
  vm_compute. reflexivity.
Defined.

(** X10: The writing phase leaves alone every file that is neither one of its
    output names nor has a name starting with a hash sign, whatever the
    frames and whether or not it ends in an exception. *)
Theorem other_files_untouched {M} (F : Flavour M) (out : string) (split : bool)
    (trajs : list (list M)) (w : world M) (p : string) :
  starts_with_hash p = false →
  (∀ i, i < length trajs → traj_name F out i ≠ p) →
  files (write_phase F out split trajs w).2 !! p = files w !! p.
Proof.
  intros Hp Hnames. unfold write_phase, regroup. destruct split.
  - by apply write_trajs_files_ne.
  - destruct trajs as [|traj rest]; [done|].
    apply write_trajs_files_ne; [done|].
    intros j Hj. simpl in Hj. replace j with 0 by lia.
    apply Hnames. simpl. lia.
Qed.

(** An earlier output next to a file the conversion has no business with. *)
Definition with_notes : world G96.G96Mol :=
  {| files := {[ "traj_1.g96" := [scenario_frame]; "notes.g96" := [run_frame 7] ]};
     oplog := [] |}.

Lemma other_files_untouched_witness :
  files (write_phase (g96 Num.float_of_string) "traj.g96" true
           [[run_frame 1]; [run_frame 2]] with_notes).2 !! "notes.g96"
    = files with_notes !! "notes.g96".
Proof.
  refine (other_files_untouched (g96 Num.float_of_string) "traj.g96" true
            [[run_frame 1]; [run_frame 2]] with_notes "notes.g96" _ _).
  - reflexivity.
  - intros [|[|i]] Hi; [vm_compute; discriminate..|simpl in Hi; lia].
Defined.

Example notes_kept :
  files (write_phase (g96 Num.float_of_string) "traj.g96" true
           [[run_frame 1]; [run_frame 2]] with_notes).2 !! "notes.g96"
    = Some [run_frame 7].
Proof. vm_compute. reflexivity. Qed.

(** ** The names of the files *)

Definition is_digit (c : ascii) : bool :=
  (48 <=? nat_of_ascii c)%nat && (nat_of_ascii c <=? 57)%nat.

Fixpoint all_digits (s : string) : bool :=
  match s with
  | EmptyString => true
  | String c s' => is_digit c && all_digits s'
  end.

(** One step of [+:+] on a string that starts with a known character. *)
Ltac append_cons :=
  repeat (progress
    (change (String.append (String ?c ?s) ?t) with (String c (String.append s t)) in *
     || change (String.append EmptyString ?t) with t in *)).

Lemma append_assoc (s1 s2 s3 : string) : (s1 +:+ s2) +:+ s3 = s1 +:+ s2 +:+ s3.
Proof. induction s1 as [|c s1 IH]; append_cons; [done|]. by rewrite IH. Qed.

Lemma pretty_N_char_digit (x : N) : is_digit (pretty_N_char x) = true.
Proof. unfold pretty_N_char. by repeat case_match. Qed.

Lemma pretty_N_go_digits (x : N) : ∀ s,
  all_digits s = true → all_digits (pretty_N_go x s) = true.
Proof.
  induction (N.lt_wf_0 x) as [x _ IH]; intros s Hs.
  destruct (decide (x = 0)%N) as [->|Hx]; [by rewrite pretty_N_go_0|].
  rewrite pretty_N_go_step by lia. apply IH.
  - apply N.div_lt; lia.
  - simpl. by rewrite pretty_N_char_digit.
Qed.

(** [str(n)] of a non-negative integer consists of digits. *)
Lemma str_int_digits (n : Z) : (0 ≤ n)%Z → all_digits (Py.str_int n) = true.
Proof.
  intros Hn. unfold Py.str_int, pretty, pretty_Z.
  destruct n as [|x|x]; [done| |lia].
  unfold pretty, pretty_positive, pretty, pretty_N.
  case_decide; [done|]. by apply pretty_N_go_digits.
Qed.

(** Two runs of digits, each followed by a character that is no digit. *)
Lemma digits_then_other (d1 : string) : ∀ d2 c1 c2 r1 r2,
  all_digits d1 = true → all_digits d2 = true →
  is_digit c1 = false → is_digit c2 = false →
  d1 +:+ String c1 r1 = d2 +:+ String c2 r2 → d1 = d2.
Proof.
  induction d1 as [|a d1 IH]; intros [|b d2] c1 c2 r1 r2 H1 H2 Hc1 Hc2 H;
    append_cons; simpl in *; try done.
  - injection H as -> _. apply andb_true_iff in H2 as [H2 _]. congruence.
  - injection H as -> _. apply andb_true_iff in H1 as [H1 _]. congruence.
  - injection H as -> H. apply andb_true_iff in H1 as [_ H1].
    apply andb_true_iff in H2 as [_ H2]. f_equal.
    exact (IH d2 c1 c2 r1 r2 H1 H2 Hc1 Hc2 H).
Qed.

Lemma replace_none (old new : string) : ∀ s,
  Py.contains old s = false → Py.replace_go old new 0 s = s.
Proof.
  induction s as [|c s IH]; [done|]. cbn [Py.contains Py.replace_go].
  intros H. apply orb_false_iff in H as [-> H]. by rewrite IH.
Qed.

(** Replacing an occurrence by texts that cannot be told apart by what
    follows them is the only way to get the same result twice. *)
Lemma replace_differs (old new1 new2 : string) : ∀ s,
  old ≠ "" → Py.contains old s = true →
  (∀ r1 r2, new1 +:+ r1 ≠ new2 +:+ r2) →
  Py.replace_go old new1 0 s ≠ Py.replace_go old new2 0 s.
Proof.
  intros s Hold. induction s as [|c s IH]; intros Hc Hnew.
  - destruct old; [done|discriminate Hc].
  - cbn [Py.contains Py.replace_go] in *.
    destruct (String.prefix old (String c s)); [apply Hnew|].
    simpl in Hc. intros [= H]. by apply IH in H.
Qed.

Section Names.
Context {M : Type}.
Variable F : Flavour M.

(** The name given to a trajectory never starts with a hash sign unless
    the output path does. *)
Lemma traj_name_no_hash (out : string) (traj_idx : nat) :
  starts_with_hash out = false → starts_with_hash (traj_name F out traj_idx) = false.
Proof.
  unfold traj_name, Py.replace. destruct out as [|c out]; [done|].
  cbn [Py.replace_go]. by destruct (String.prefix _ _).
Qed.

Lemma traj_name_differs (out : string) (c : ascii) (e : string) (i j : nat) :
  ext F = String c e → is_digit c = false →
  (∀ k, 0 ≤ suffix F k)%Z → suffix F i ≠ suffix F j →
  Py.contains (ext F) out = true →
  traj_name F out i ≠ traj_name F out j.
Proof.
  intros He Hc Hpos Hij Hout. unfold traj_name, Py.replace.
  apply replace_differs; [by rewrite He|done|].
  intros r1 r2 H. rewrite He in H. rewrite !append_assoc in H.
  append_cons. injection H as H. apply digits_then_other in H; try done.
  - by apply (inj pretty) in H.
  - by apply str_int_digits.
  - by apply str_int_digits.
Qed.
End Names.

(** X11: In split mode two trajectories of one run never share a file: when
    the output path contains the extension, the names given to different
    positions of the trajectory list differ, in both programs. *)
Theorem split_names_distinct py_float (t : Gro.Template) (out : string) (i j : nat) :
  i ≠ j →
  (Py.contains ".g96" out = true →
   traj_name (g96 py_float) out i ≠ traj_name (g96 py_float) out j) ∧
  (Py.contains ".gro" out = true →
   traj_name (gro py_float t) out i ≠ traj_name (gro py_float t) out j).
Proof.
  intros Hij. split; intros Hout.
  - apply (traj_name_differs _ out "." "g96"); try done; simpl; lia.
  - apply (traj_name_differs _ out "." "gro"); try done; simpl; lia.
Qed.

Lemma split_names_distinct_witness :
  (Py.contains ".g96" "out/traj.g96" = true →
   traj_name (g96 Num.float_of_string) "out/traj.g96" 0
   ≠ traj_name (g96 Num.float_of_string) "out/traj.g96" 1) ∧
  (Py.contains ".gro" "out/traj.g96" = true →
   traj_name (gro Num.float_of_string template2_read) "out/traj.g96" 0
   ≠ traj_name (gro Num.float_of_string template2_read) "out/traj.g96" 1).
Proof.
  refine (split_names_distinct Num.float_of_string template2_read
            "out/traj.g96" 0 1 _).
  lia.
Defined.

(** X12: An output path that does not contain the extension is used as it is
    for every trajectory: in split mode each trajectory is written to that
    one path in turn, and when all frames can be formatted the file ends up
    holding the frames of the last trajectory only. *)
Theorem name_without_extension {M} (F : Flavour M) (out : string)
    (trajs : list (list M)) (w : world M) :
  Py.contains (ext F) out = false →
  all_good F (concat trajs) = true →
  let w' := (write_phase F out true trajs w).2 in
  (∀ traj_idx, traj_name F out traj_idx = out) ∧
  sessions (new_ops w w') = (λ traj, (out, traj)) <$> trajs ∧
  (∀ traj, last trajs = Some traj → files w' !! out = Some traj).
Proof.
  intros Hout Hgood w'.
  assert (Hname : ∀ traj_idx, traj_name F out traj_idx = out).
  { intros traj_idx. by apply replace_none. }
  split; [done|]. subst w'. unfold write_phase. cbn [regroup]. split.
  - destruct (write_trajs_spec F out trajs 0 [] w) as (ops & Hlog & _ & _ & _ & Hall).
    destruct (Hall Hgood) as [Hs _].
    rewrite (new_ops_app _ _ _ Hlog), Hs.
    apply list_eq. intros i. rewrite list_lookup_imap, list_lookup_fmap.
    destruct (trajs !! i); simpl; [|done]. by rewrite Hname.
  - intros traj Hlast. rewrite last_lookup in Hlast.
    pose proof (write_trajs_files F out trajs 0 [] w _ traj Hgood Hlast) as Hfile.
    rewrite Hname in Hfile. apply Hfile; intros; lia.
Qed.

Lemma name_without_extension_witness :
  let w' := (write_phase (g96 Num.float_of_string) "traj" true
               [[run_frame 1]; [run_frame 2]] earlier_output).2 in
  (∀ traj_idx, traj_name (g96 Num.float_of_string) "traj" traj_idx = "traj") ∧
  sessions (new_ops earlier_output w')
    = (λ traj, ("traj", traj)) <$> [[run_frame 1]; [run_frame 2]] ∧
  (∀ traj, last [[run_frame 1]; [run_frame 2]] = Some traj →
           files w' !! "traj" = Some traj).
Proof.
  refine (name_without_extension (g96 Num.float_of_string) "traj"
            [[run_frame 1]; [run_frame 2]] earlier_output _ _).
  - reflexivity.
  - vm_compute. reflexivity.
Defined.

(** * Further properties of the anchors *)

Section Anchors.
Variable py_int : string → option Z.
Variable py_float : string → option float.
Context {M : Type}.
Variable F : Flavour M.
Variable reorder_map : option ndarray.
Variable contents : list string.

Local Abbreviation header := (header py_int py_float F contents).
Local Abbreviation on_cycle := (on_cycle py_int py_float F reorder_map contents).
Local Abbreviation iteration := (iteration py_int py_float F reorder_map contents).
Local Abbreviation parse := (parse py_int py_float F reorder_map contents).
Local Abbreviation reaches := (reaches py_int py_float F reorder_map contents).

Implicit Types (st : pstate M) (line : string).

(** The line the last two tests of a turn see is a line of the source:
    the one under the cursor, or the mass line two below it. *)
Lemma header_line st line st1 :
  header st = Ok (line, st1) → line ∈ contents.
Proof.
  unfold header. intros H.
  destruct (Py.item contents (cur_line_idx st)) as [l|] eqn:Hl; [simpl in H|done].
  destruct (on_num_atoms py_int F l st) as [s1|]; [simpl in H|done].
  destruct (on_masses py_float contents l s1) as [[l2 s2]|] eqn:H2;
    [simpl in H|done].
  destruct (on_traj py_int l2 s2) as [s3|]; [simpl in H|done].
  injection H as <- _. unfold on_masses in H2.
  destruct (Py.contains anchor_masses l).
  - destruct (Py.item contents (cur_line_idx s1 + 2)) as [l'|] eqn:Hl';
      [simpl in H2|done].
    destruct (mapM _ _); [simpl in H2|done]. injection H2 as <- _.
    apply item_Ok in Hl'. by eapply list_elem_of_lookup_2.
  - injection H2 as <- _. apply item_Ok in Hl. by eapply list_elem_of_lookup_2.
Qed.

(** Without a trajectory anchor on the line it sees, the header adds no
    group. *)
Lemma header_no_traj st line st1 :
  header st = Ok (line, st1) → Py.contains anchor_traj line = false →
  traj_list st1 = traj_list st.
Proof.
  unfold header. intros H Hno.
  destruct (Py.item contents (cur_line_idx st)) as [l|]; [simpl in H|done].
  destruct (on_num_atoms py_int F l st) as [s1|] eqn:H1; [simpl in H|done].
  destruct (on_masses py_float contents l s1) as [[l2 s2]|] eqn:H2;
    [simpl in H|done].
  destruct (on_traj py_int l2 s2) as [s3|] eqn:H3; [simpl in H|done].
  injection H as <- <-.
  apply on_num_atoms_fields in H1 as (_ & _ & <- & _).
  apply on_masses_fields in H2 as (_ & _ & <- & _).
  unfold on_traj in H3. rewrite Hno in H3. by injection H3 as <-.
Qed.

Lemma on_cycle_no_group line st :
  Py.contains anchor_cycle line = true → traj_list st = [] →
  raises (on_cycle line st).
Proof.
  intros Hc Hnil. destruct (Ok_or_raises (on_cycle line st)) as [[st' H]|]; [|done].
  apply on_cycle_Ok in H as [[Hno _]|(_ & _ & _ & _ & _ & _ & _ & _ & gs & g
    & _ & _ & _ & _ & _ & _ & Htl & _)]; [congruence|].
  rewrite Hnil in Htl. by destruct gs.
Qed.
End Anchors.

(** X13: Frames come from cycle anchors only: a source none of whose lines
    contains the cycle anchor parses, if at all, to groups that are all
    empty, whatever the flavour and the reorder map. *)
Theorem no_cycle_anchor_no_frame py_int py_float {M} (F : Flavour M)
    (reorder_map : option ndarray) (contents : list string)
    (traj_list' : list (list M)) :
  Forall (λ l, Py.contains anchor_cycle l = false) contents →
  parse py_int py_float F reorder_map contents = Ok traj_list' →
  Forall (λ g, g = []) traj_list'.
Proof.
  intros Hno Hparse.
  destruct (parse_invariant py_int py_float F reorder_map contents
              (λ st, Forall (λ g, g = []) (traj_list st)) traj_list')
    as (st & Hst & <-); try done.
  intros st st' Hall Hit.
  apply iteration_Ok in Hit as (line & st1 & st4 & Hh & Hcy & ->). simpl.
  pose proof (header_line _ _ _ _ _ _ _ Hh) as Hin.
  apply header_Ok in Hh as [_ Htl1].
  assert (Forall (λ g, g = []) (traj_list st1)) as Hall1.
  { destruct Htl1 as [->| ->]; [done|]. apply Forall_app. by repeat constructor. }
  apply on_cycle_Ok in Hcy as [[_ ->]|[Hc _]]; [done|].
  rewrite Forall_forall in Hno. rewrite (Hno _ Hin) in Hc. done.
Qed.

Lemma no_cycle_anchor_no_frame_witness :
  Forall (λ g : list G96.G96Mol, g = []) [[]].
Proof.
  refine (no_cycle_anchor_no_frame Num.int_of_string Num.float_of_string
            (g96 Num.float_of_string) None (take 5 scenario) [[]] _ _).
  - repeat constructor.
  - vm_compute. reflexivity.
Defined.

(** X14: Frames need a trajectory line: in a source none of whose lines contains
    the trajectory anchor, the trajectory list stays empty, so a parse that
    succeeds returns no group at all, and a turn of the loop that sees a
    cycle anchor ends the parse with an exception. *)
Theorem frame_needs_trajectory_line py_int py_float {M} (F : Flavour M)
    (reorder_map : option ndarray) (contents : list string) :
  Forall (λ l, Py.contains anchor_traj l = false) contents →
  (∀ traj_list',
     parse py_int py_float F reorder_map contents = Ok traj_list' →
     traj_list' = []) ∧
  (∀ st line st1,
     reaches py_int py_float F reorder_map contents st →
     header py_int py_float F contents st = Ok (line, st1) →
     Py.contains anchor_cycle line = true →
     raises (parse py_int py_float F reorder_map contents)).
Proof.
  intros Hno. rewrite Forall_forall in Hno.
  assert (preserved py_int py_float F reorder_map contents
            (λ st, traj_list st = [])) as Hpres.
  { intros st st' Hnil Hit.
    apply iteration_Ok in Hit as (line & st1 & st4 & Hh & Hcy & ->). simpl.
    pose proof (header_line _ _ _ _ _ _ _ Hh) as Hin.
    apply header_no_traj in Hh; [|by apply Hno]. rewrite Hnil in Hh.
    apply on_cycle_Ok in Hcy as [[_ ->]|(_ & _ & _ & _ & _ & _ & _ & _ & gs & g
      & _ & _ & _ & _ & _ & _ & Htl & _)]; [done|].
    rewrite Hh in Htl. by destruct gs. }
  split.
  - intros tl Hparse.
    by destruct (parse_invariant _ _ _ _ _ _ tl Hpres eq_refl Hparse)
      as (st & Hst & <-).
  - intros st line st1 Hr Hh Hc.
    pose proof (reaches_invariant _ _ _ _ _ _ st Hpres eq_refl Hr) as Hnil.
    apply (parse_raises_at _ _ _ _ _ st Hr).
    { by apply header_idx in Hh as [? _]. }
    apply (iteration_raises_cycle _ _ _ _ _ _ _ _ Hh), on_cycle_no_group; [done|].
    pose proof (header_line _ _ _ _ _ _ _ Hh) as Hin.
    apply header_no_traj in Hh; [|by apply Hno]. congruence.
Qed.

(** A cycle block that no trajectory line precedes. *)
Definition undeclared : list string :=
  take 4 scenario ++ cycle_block "100".

Lemma frame_needs_trajectory_line_witness :
  (∀ traj_list',
     venus2g96_parse Num.int_of_string Num.float_of_string undeclared None
       = Ok traj_list' → traj_list' = []) ∧
  (∀ st line st1,
     reaches Num.int_of_string Num.float_of_string (g96 Num.float_of_string)
       None undeclared st →
     header Num.int_of_string Num.float_of_string (g96 Num.float_of_string)
       undeclared st = Ok (line, st1) →
     Py.contains anchor_cycle line = true →
     raises (venus2g96_parse Num.int_of_string Num.float_of_string undeclared None)).
Proof.
  refine (frame_needs_trajectory_line Num.int_of_string Num.float_of_string
            (g96 Num.float_of_string) None undeclared _).
  repeat constructor.
Defined.

Example undeclared_raises :
  venus2g96_parse Num.int_of_string Num.float_of_string undeclared None
    = Raise IndexError.
Proof. vm_compute. reflexivity. Qed.

(** * The previous output *)

(** X15: With split mode off, a file that already exists under the output name
    is not lost by the run: whatever the frames, and whether or not the
    writing ends in an exception, its records are afterwards found under a
    backup name [#stem.k.ext#] (a path without a directory), provided the
    output name does not itself start with a hash sign. *)
Theorem previous_output_kept {M} (F : Flavour M) (out : string)
    (trajs : list (list M)) (w : world M) (c : list M) :
  trajs ≠ [] →
  let name := traj_name F out 0 in
  files w !! name = Some c →
  starts_with_hash name = false →
  ∃ k : Z,
    (1 ≤ k)%Z ∧
    files (write_phase F out false trajs w).2
      !! ("#" +:+ Py.replace (ext F) "" (Os.basename name) +:+ "."
          +:+ Py.str_int k +:+ ext F +:+ "#") = Some c.
Proof.
  intros Hne name Hc Hp. unfold write_phase, regroup.
  destruct trajs as [|traj0 rest]; [done|]. cbn [write_trajs]. fold name.
  set (k := (Z.of_nat (length (glob w (Os.join (Os.dirname name)
               ("#" +:+ Py.replace (ext F) "" (Os.basename name) +:+ ".*"
                +:+ ext F +:+ "#")))) + 1)%Z).
  set (backup := "#" +:+ Py.replace (ext F) "" (Os.basename name) +:+ "."
                 +:+ Py.str_int k +:+ ext F +:+ "#").
  exists k. split; [lia|]. fold backup.
  assert (Hb : backup ≠ name).
  { intros Heq. rewrite <- Heq in Hp. discriminate Hp. }
  assert (Hw : _auto_backup_file F name w = rename name backup w).
  { unfold _auto_backup_file, exists_.
    rewrite bool_decide_eq_true_2 by (rewrite Hc; eauto). done. }
  rewrite Hw.
  pose proof (write_frames_files_ne F name (concat (traj0 :: rest)) backup
                (open_w name (rename name backup w)) Hb) as Hfiles.
  destruct (write_frames F name _ _) as [[[]|e] w3]; cbn [snd write_trajs] in *;
    rewrite Hfiles; cbn [open_w rename files]; rewrite Hc;
    rewrite lookup_insert_ne by done; by rewrite lookup_insert_eq.
Qed.

Lemma previous_output_kept_witness :
  ∃ k : Z,
    (1 ≤ k)%Z ∧
    files (write_phase (g96 Num.float_of_string) "traj.g96" false
             [[run_frame 1]; [run_frame 2]] earlier_output).2
      !! ("#" +:+ Py.replace ".g96" "" (Os.basename "traj_1.g96") +:+ "."
          +:+ Py.str_int k +:+ ".g96" +:+ "#") = Some [scenario_frame].
Proof.
  refine (previous_output_kept (g96 Num.float_of_string) "traj.g96"
            [[run_frame 1]; [run_frame 2]] earlier_output [scenario_frame] _ _ _).
  - discriminate.
  - vm_compute. reflexivity.
  - reflexivity.
Defined.

(** * An atom of mass zero *)

(** X16: The two programs divide differently.  For an atom whose mass is zero
    and whose line has at least one momentum field, all of them numbers,
    venus2gro (Python floats) raises ZeroDivisionError, while venus2g96
    (NumPy arrays) stores the quotients, which are infinite or not a
    number. *)
Theorem zero_mass py_float (arr : list string) (masses : list float) (i : nat)
    (m : float) (p_atom : list float) :
  masses !! i = Some m → PrimFloat.eqb m 0 = true →
  mapM (to_float py_float) (drop 3 arr) = Ok p_atom → p_atom ≠ [] →
  gro_velocity py_float arr masses i = Raise ZeroDivisionError ∧
  g96_velocity py_float arr masses i = Ok ((λ p, 10.0 * p / m)%float <$> p_atom).
Proof.
  intros Hm H0 Hps Hne. split.
  - unfold gro_velocity. destruct (drop 3 arr) as [|p rest].
    { injection Hps as <-. done. }
    rewrite mapM_cons in Hps. rewrite mapM_cons.
    destruct (to_float py_float p) as [x|]; [simpl|done].
    unfold Py.item. rewrite Hm. simpl. by rewrite H0.
  - unfold g96_velocity. rewrite Hps. simpl.
    unfold Py.item. by rewrite Hm.
Qed.

Lemma zero_mass_witness :
  gro_velocity Num.float_of_string ["1"; "2"; "3"; "4"; "5"; "6"] [1; 0]%float 1
    = Raise ZeroDivisionError ∧
  g96_velocity Num.float_of_string ["1"; "2"; "3"; "4"; "5"; "6"] [1; 0]%float 1
    = Ok ((λ p, 10.0 * p / 0)%float <$> [4; 5; 6]%float).
Proof.
  refine (zero_mass Num.float_of_string ["1"; "2"; "3"; "4"; "5"; "6"]
            [1; 0]%float 1 0%float [4; 5; 6]%float _ _ _ _).
  - reflexivity.
  - vm_compute. reflexivity.
  - vm_compute. reflexivity.
  - discriminate.
Defined.
